(** * Spell Recorder: a shallow embedding of [streamlit_app.py]

    The development follows the script top to bottom: Python text
    helpers and [sanitize_username], the numeric kernel on numpy
    arrays ([to_mono], [resample_to_target], clip and quantisation),
    the WAV writer, the GridFS handle and [save_audio_to_mongo], and
    finally the submission branch of [main].  Library calls whose
    result the script cannot determine (the audio decoder, the
    polyphase resampler, the MongoDB server, the clock) are fields of
    an environment record. *)

From Stdlib Require Import String Ascii Bool List ZArith NArith Lia.
From Stdlib Require Import Strings.Byte DecimalString Permutation SpecFloat.
Import ListNotations.


(** ** Python text *)

Module Py.

Local Open Scope N_scope.

(** A Python [str] is a sequence of Unicode code points. *)
Definition str := list N.

(** ASCII literals. *)
Definition u (s : string) : str :=
  map N_of_ascii (list_ascii_of_string s).

Fixpoint str_eqb (a b : str) : bool :=
  match a, b with
  | [], [] => true
  | x :: a', y :: b' => N.eqb x y && str_eqb a' b'
  | _, _ => false
  end.

(** [str.isspace] on one code point; the regular expression class
    [\s] of a [str] pattern accepts the same code points. *)
Definition isspace (c : N) : bool :=
  ((9 <=? c) && (c <=? 13)) || ((28 <=? c) && (c <=? 32))
  || (c =? 133) || (c =? 160) || (c =? 5760)
  || ((8192 <=? c) && (c <=? 8202))
  || (c =? 8232) || (c =? 8233) || (c =? 8239) || (c =? 8287)
  || (c =? 12288).

Definition is_lower (c : N) : bool := (97 <=? c) && (c <=? 122).
Definition is_upper (c : N) : bool := (65 <=? c) && (c <=? 90).
Definition is_digit (c : N) : bool := (48 <=? c) && (c <=? 57).

(** The class [[a-zA-Z0-9]]. *)
Definition is_alnum (c : N) : bool := is_lower c || is_upper c || is_digit c.

(** The class [[a-zA-Z0-9_-]]. *)
Definition is_name_char (c : N) : bool :=
  is_alnum c || (c =? 95) || (c =? 45).

(** The class [[a-z0-9_-]] of the stored identity. *)
Definition is_ident_char (c : N) : bool :=
  is_lower c || is_digit c || (c =? 95) || (c =? 45).

(** [s.lstrip(chars)], [s.rstrip(chars)], [s.strip(chars)] for a set of
    characters given as a predicate. *)
Fixpoint lstrip_by (p : N -> bool) (s : str) : str :=
  match s with
  | [] => []
  | c :: r => if p c then lstrip_by p r else s
  end.

Definition rstrip_by (p : N -> bool) (s : str) : str :=
  rev (lstrip_by p (rev s)).

Definition strip_by (p : N -> bool) (s : str) : str :=
  rstrip_by p (lstrip_by p s).

(** [s.strip()] *)
Definition strip (s : str) : str := strip_by isspace s.

(** [re.sub(r"C+", repl, s)] for a character class [C]: scanning from
    the left, every maximal run of characters of the class is replaced
    by one copy of [repl].  [in_run] tells that the previous character
    belonged to the run being replaced. *)
Fixpoint re_sub_runs_from (cls : N -> bool) (repl : str) (in_run : bool)
                          (s : str) : str :=
  match s with
  | [] => []
  | c :: r =>
      if cls c
      then (if in_run then [] else repl) ++ re_sub_runs_from cls repl true r
      else c :: re_sub_runs_from cls repl false r
  end.

Definition re_sub_runs (cls : N -> bool) (repl s : str) : str :=
  re_sub_runs_from cls repl false s.

(** [re.sub(r"C", repl, s)] for a character class [C]: every single
    character of the class is replaced by [repl]. *)
Definition re_sub_each (cls : N -> bool) (repl s : str) : str :=
  flat_map (fun c => if cls c then repl else [c]) s.

(** [s.lower()].  Both uses in the script apply it to text that a
    regular expression has already reduced to ASCII, where lowering
    touches the letters A to Z only. *)
Definition lower_char (c : N) : N := if is_upper c then c + 32 else c.
Definition lower (s : str) : str := map lower_char s.

(** Truth value of a string: [bool(s)]. *)
Definition truthy (s : str) : bool :=
  match s with [] => false | _ => true end.

(** [a or b] on strings. *)
Definition str_or (a b : str) : str := if truthy a then a else b.

End Py.

Import Py.

Definition anon : str := u "anon".

(** [sanitize_username], lines 57 to 62.  [None] is the absent name. *)
Definition sanitize_username (name : option str) : str :=
  match name with
  | None => anon
  | Some name =>
      if negb (truthy name) then anon
      else
        let name := re_sub_runs isspace (u "_") (strip name) in
        let name := re_sub_each (fun c => negb (is_name_char c)) [] name in
        str_or (lower name) anon
  end.

Local Open Scope Z_scope.

(** ** Exceptions *)

(** A raised exception is known to the script only through the text
    [str(e)] that [st.error] shows. *)
Definition exn := str.

Inductive result (A : Type) : Type :=
| Ok (a : A)
| Raise (e : exn).

Arguments Ok {A} a.
Arguments Raise {A} e.

(** ** numpy arrays of floating-point samples *)

Module Np.

Inductive dtype := Float32 | Float64.

Definition prec (d : dtype) : Z :=
  match d with Float32 => 24 | Float64 => 53 end.
Definition emax (d : dtype) : Z :=
  match d with Float32 => 128 | Float64 => 1024 end.

(** IEEE 754 binary floating-point values; the format is carried by the
    array they live in. *)
Definition float := spec_float.

Definition fadd (d : dtype) : float -> float -> float := SFadd (prec d) (emax d).
Definition fmul (d : dtype) : float -> float -> float := SFmul (prec d) (emax d).
Definition fdiv (d : dtype) : float -> float -> float := SFdiv (prec d) (emax d).

(** A Python number that is an integer value, taken at the precision of
    the array it meets ([1.0], [-1.0], [32767.0], a channel count). *)
Definition of_Z (d : dtype) (n : Z) : float :=
  binary_normalize (prec d) (emax d) n 0 false.

Definition is_nan (x : float) : bool :=
  match x with S754_nan => true | _ => false end.

(** [x < y] and [x > y] of C: false when either side is NaN. *)
Definition flt (x y : float) : bool := SFltb x y.
Definition fgt (x y : float) : bool := SFltb y x.
Definition fle (x y : float) : bool := SFleb x y.

(** numpy's clip kernel: [min(max(x, lo), hi)] where [max] and [min]
    return their first argument when it is NaN. *)
Definition npy_max (a b : float) : float :=
  if is_nan a || fgt a b then a else b.
Definition npy_min (a b : float) : float :=
  if is_nan a || flt a b then a else b.
Definition clip1 (lo hi x : float) : float := npy_min (npy_max x lo) hi.

(** The integer part of a float, toward zero. *)
Definition trunc (x : float) : option Z :=
  match x with
  | S754_zero _ => Some 0
  | S754_finite s m e =>
      let a := match e with
               | Zneg p => Z.pos m / 2 ^ Z.pos p
               | _ => Z.pos m * 2 ^ e
               end in
      Some (if s then - a else a)
  | _ => None
  end.

(** Two's complement reading of the low 16 bits. *)
Definition wrap16 (z : Z) : Z := (z + 32768) mod 65536 - 32768.

(** The C cast behind [astype(np.int16)]: truncation toward zero; a
    value outside [int16] keeps its low 16 bits, and where the 32-bit
    conversion itself fails (NaN, infinities, magnitude of 2^31 or
    more) the machine answers [0x80000000], whose low half is 0. *)
Definition to_int16 (x : float) : Z :=
  match trunc x with
  | Some z => if (- 2 ^ 31 <=? z) && (z <? 2 ^ 31) then wrap16 z else 0
  | None => 0
  end.

(** One- and two-dimensional arrays; a two-dimensional audio array has
    one row per frame and one column per channel. *)
Inductive nd (A : Type) : Type :=
| Arr1 (xs : list A)
| Arr2 (rows : list (list A)).

Arguments Arr1 {A} xs.
Arguments Arr2 {A} rows.

Definition ndim {A} (a : nd A) : Z :=
  match a with Arr1 _ => 1 | Arr2 _ => 2 end.

(** [shape[1]] of a two-dimensional array. *)
Definition shape1 {A} (rows : list (list A)) : Z :=
  match rows with [] => 0 | r :: _ => Z.of_nat (length r) end.

Definition size {A} (a : nd A) : Z :=
  match a with
  | Arr1 xs => Z.of_nat (length xs)
  | Arr2 rows => Z.of_nat (length rows) * shape1 rows
  end.

Definition nd_map {A B} (f : A -> B) (a : nd A) : nd B :=
  match a with
  | Arr1 xs => Arr1 (map f xs)
  | Arr2 rows => Arr2 (map (map f) rows)
  end.

(** The elements in memory order (C order). *)
Definition ravel {A} (a : nd A) : list A :=
  match a with
  | Arr1 xs => xs
  | Arr2 rows => concat rows
  end.

Record ndarray := mk_ndarray { dtype_of : dtype; values : nd float }.

(** [np.add.reduce] over one row of a C-contiguous array, in the
    array's own precision, as numpy's inner loop computes it: the
    accumulator starts from the identity of addition, [0.0], and
    receives the pairwise sum of the row.

    [pairwise_sum] adds fewer than 8 items one after the other.  Up to
    [PW_BLOCKSIZE] items it keeps 8 running sums, one per position in a
    block of 8, over the full blocks; it adds the 8 sums as a balanced
    tree and then the items left over, one after the other.  A longer
    row is cut in two near the middle, at a multiple of 8, and the sums
    of the halves are added. *)
Definition PW_BLOCKSIZE : nat := 128.

Definition zero : float := S754_zero false.

(** [for x in a: res += x] *)
Definition add_seq (d : dtype) (res : float) (a : list float) : float :=
  fold_left (fadd d) a res.

(** [r[j] += a[j]] for the positions of one block. *)
Fixpoint add_block (d : dtype) (r a : list float) : list float :=
  match r, a with
  | x :: r', y :: a' => fadd d x y :: add_block d r' a'
  | _, _ => r
  end.

(** The loop over [nblocks] full blocks; the value is the running sums
    and the items not yet read. *)
Fixpoint add_blocks (d : dtype) (nblocks : nat) (r a : list float)
  : list float * list float :=
  match nblocks with
  | O => (r, a)
  | S k => add_blocks d k (add_block d r (firstn 8 a)) (skipn 8 a)
  end.

(** [((r0 + r1) + (r2 + r3)) + ((r4 + r5) + (r6 + r7))] *)
Definition tree8 (d : dtype) (r : list float) : float :=
  match r with
  | [r0; r1; r2; r3; r4; r5; r6; r7] =>
      fadd d (fadd d (fadd d r0 r1) (fadd d r2 r3))
             (fadd d (fadd d r4 r5) (fadd d r6 r7))
  | _ => zero
  end.

(** [fuel] bounds the depth of the halving; the length of the row is
    always enough. *)
Fixpoint pairwise_sum (fuel : nat) (d : dtype) (a : list float) : float :=
  let n := length a in
  if (n <? 8)%nat then add_seq d zero a
  else if (n <=? PW_BLOCKSIZE)%nat then
    let '(r, rest) := add_blocks d (n / 8 - 1) (firstn 8 a) (skipn 8 a) in
    add_seq d (tree8 d r) rest
  else
    match fuel with
    | O => zero
    | S fuel' =>
        let n2 := (n / 2 - (n / 2) mod 8)%nat in
        fadd d (pairwise_sum fuel' d (firstn n2 a))
               (pairwise_sum fuel' d (skipn n2 a))
    end.

Definition fsum (d : dtype) (row : list float) : float :=
  fadd d zero (pairwise_sum (length row) d row).

(** [mean] of one row: the sum divided by the number of items. *)
Definition fmean (d : dtype) (row : list float) : float :=
  fdiv d (fsum d row) (of_Z d (Z.of_nat (length row))).

(** [a.mean(axis=1)] of a two-dimensional array. *)
Definition mean_axis1 (d : dtype) (rows : list (list float)) : ndarray :=
  mk_ndarray d (Arr1 (map (fmean d) rows)).

(** [np.clip(a, lo, hi)] with Python float bounds. *)
Definition clip (a : ndarray) (lo hi : Z) : ndarray :=
  let d := dtype_of a in
  mk_ndarray d (nd_map (clip1 (of_Z d lo) (of_Z d hi)) (values a)).

(** [a * k] for a Python float [k] of integer value. *)
Definition mul_scalar (a : ndarray) (k : Z) : ndarray :=
  let d := dtype_of a in
  mk_ndarray d (nd_map (fun x => fmul d x (of_Z d k)) (values a)).

(** [a.astype(np.int16)] *)
Definition astype_int16 (a : ndarray) : nd Z := nd_map to_int16 (values a).

End Np.

Import Np.

Definition TARGET_SR : Z := 16000.

(** [to_mono], lines 65 to 68. *)
Definition to_mono (audio : ndarray) : ndarray :=
  match values audio with
  | Arr2 rows => mean_axis1 (dtype_of audio) rows
  | Arr1 _ => audio
  end.

(** [resample_to_target], lines 71 to 77.  [resample_poly] is scipy's
    polyphase resampler, which may raise.  Python's [//] is the floor
    division [Z.div]; it raises on a zero divisor. *)
Definition resample_to_target
    (resample_poly : ndarray -> Z -> Z -> result ndarray)
    (audio : ndarray) (sr target_sr : Z) : result ndarray :=
  if sr =? target_sr then Ok audio
  else
    let g := Z.gcd sr target_sr in
    if g =? 0 then Raise (u "integer division or modulo by zero")
    else
      let up := target_sr / g in
      let down := sr / g in
      resample_poly audio up down.

(** Lines 89 to 92: clip to [-1.0, 1.0], scale by [32767.0], cast. *)
Definition quantize (audio : ndarray) : nd Z :=
  astype_int16 (mul_scalar (clip audio (-1) 1) 32767).

(** ** Sequencing of calls that may raise *)

Definition bind_result {A B} (r : result A) (k : A -> result B) : result B :=
  match r with
  | Ok a => k a
  | Raise e => Raise e
  end.

Declare Scope result_scope.
Delimit Scope result_scope with result.
Notation "x <- r ;; k" := (bind_result r (fun x => k))
  (at level 61, r at next level, right associativity) : result_scope.

(** ** [scipy.io.wavfile.write] for 16-bit integer data *)

Module Wav.

Definition bytes := list byte.

Definition byte_of_Z (z : Z) : byte :=
  match Byte.of_N (Z.to_N (z mod 256)) with
  | Some b => b
  | None => Byte.x00
  end.

Definition Z_of_byte (b : byte) : Z := Z.of_N (Byte.to_N b).

(** [n] bytes, least significant first. *)
Fixpoint le_bytes (n : nat) (z : Z) : bytes :=
  match n with
  | O => []
  | S k => byte_of_Z z :: le_bytes k (z / 256)
  end.

Fixpoint le_value (bs : bytes) : Z :=
  match bs with
  | [] => 0
  | b :: r => Z_of_byte b + 256 * le_value r
  end.

(** [struct.pack] of one unsigned little-endian field of [n] bytes. *)
Definition pack_uint (n : nat) (v : Z) : result bytes :=
  if (0 <=? v) && (v <? 256 ^ Z.of_nat n) then Ok (le_bytes n v)
  else Raise (u "argument out of range").

Definition blen (b : bytes) : Z := Z.of_nat (length b).

Definition WAVE_FORMAT_PCM : Z := 1.

(** One [int16] item in the file's little-endian byte order. *)
Definition sample_bytes (z : Z) : bytes := le_bytes 2 z.

Local Open Scope result_scope.

(** [write(buf, rate, data)] for an [int16] array and a fresh buffer;
    the value is the buffer's final content.  The size field at offset
    4 is written last, over the four zero bytes put there first. *)
Definition write (rate : Z) (data : nd Z) : result bytes :=
  let channels := match data with Arr1 _ => 1 | Arr2 rows => shape1 rows end in
  let bit_depth := 2 * 8 in
  let bytes_per_second := rate * (bit_depth / 8) * channels in
  let block_align := channels * (bit_depth / 8) in
  let nbytes := 2 * size data in
  f1 <- pack_uint 2 WAVE_FORMAT_PCM ;;
  f2 <- pack_uint 2 channels ;;
  f3 <- pack_uint 4 rate ;;
  f4 <- pack_uint 4 bytes_per_second ;;
  f5 <- pack_uint 2 block_align ;;
  f6 <- pack_uint 2 bit_depth ;;
  let fmt_chunk_data := f1 ++ f2 ++ f3 ++ f4 ++ f5 ++ f6 in
  fmt_len <- pack_uint 4 (blen fmt_chunk_data) ;;
  let header_data :=
    list_byte_of_string "RIFF" ++ [x00; x00; x00; x00]
    ++ list_byte_of_string "WAVE" ++ list_byte_of_string "fmt "
    ++ fmt_len ++ fmt_chunk_data in
  if (blen header_data - 4 - 4) + (4 + 4 + nbytes) >? 4294967295
  then Raise (u "Data exceeds wave file size limit")
  else
    data_len <- pack_uint 4 nbytes ;;
    let file := header_data ++ list_byte_of_string "data" ++ data_len
                ++ flat_map sample_bytes (ravel data) in
    riff_len <- pack_uint 4 (blen file - 8) ;;
    Ok (firstn 4 file ++ riff_len ++ skipn 8 file).

(** *** Reading a canonical WAV file back *)

Record wav_info := mk_wav_info {
  wf_format_tag : Z;
  wf_channels : Z;
  wf_rate : Z;
  wf_byte_rate : Z;
  wf_block_align : Z;
  wf_bits : Z;
  wf_payload : bytes
}.

Fixpoint bytes_eqb (a b : bytes) : bool :=
  match a, b with
  | [], [] => true
  | x :: a', y :: b' => Byte.eqb x y && bytes_eqb a' b'
  | _, _ => false
  end.

Definition slice (b : bytes) (off len : nat) : bytes := firstn len (skipn off b).

Definition field (b : bytes) (off len : nat) : Z := le_value (slice b off len).

(** The 44-byte RIFF/WAVE layout: a RIFF header whose size covers the
    rest of the file, a 16-byte [fmt ] chunk and one [data] chunk that
    runs to the end of the file. *)
Definition parse (b : bytes) : option wav_info :=
  if bytes_eqb (slice b 0 4) (list_byte_of_string "RIFF")
     && (field b 4 4 =? blen b - 8)
     && bytes_eqb (slice b 8 4) (list_byte_of_string "WAVE")
     && bytes_eqb (slice b 12 4) (list_byte_of_string "fmt ")
     && (field b 16 4 =? 16)
     && bytes_eqb (slice b 36 4) (list_byte_of_string "data")
     && (field b 40 4 =? blen b - 44)
  then Some (mk_wav_info (field b 20 2) (field b 22 2) (field b 24 4)
                         (field b 28 4) (field b 32 2) (field b 34 2)
                         (skipn 44 b))
  else None.

(** Internal consistency of an uncompressed PCM description. *)
Definition pcm_consistent (w : wav_info) : bool :=
  (wf_format_tag w =? WAVE_FORMAT_PCM)
  && (1 <=? wf_channels w)
  && (wf_block_align w =? wf_channels w * (wf_bits w / 8))
  && (wf_byte_rate w =? wf_rate w * wf_block_align w)
  && (blen (wf_payload w) mod wf_block_align w =? 0).

(** The signed 16-bit samples of a payload. *)
Fixpoint samples16 (p : bytes) : list Z :=
  match p with
  | lo :: hi :: r => wrap16 (le_value [lo; hi]) :: samples16 r
  | _ => []
  end.

(** A valid uncompressed WAV file holding mono signed 16-bit PCM at
    [rate] Hz. *)
Definition is_mono_pcm16_wav (rate : Z) (b : bytes) : bool :=
  match parse b with
  | Some w =>
      pcm_consistent w && (wf_channels w =? 1) && (wf_bits w =? 16)
      && (wf_rate w =? rate)
  | None => false
  end.

End Wav.

Import Wav.

(** ** The world outside the script *)

(** [str(n)] of an integer. *)
Definition str_of_Z (z : Z) : str := u (NilZero.string_of_int (Z.to_int z)).

Record Metadata := mk_metadata {
  md_username : str;
  md_spell : str;
  md_timestamp_ms : Z;
  md_sample_rate : Z;
  md_format : str
}.

(** The arguments of one [fs.put] call. *)
Record PutRequest := mk_put {
  put_data : bytes;
  put_filename : str;
  put_content_type : str;
  put_metadata : Metadata
}.

(** A BSON [ObjectId]: twelve bytes, here as one number. *)
Record ObjectId := mk_oid { oid_value : Z }.

Definition hex_digit (d : Z) : N :=
  Z.to_N (if d <? 10 then 48 + d else 87 + d).

Fixpoint hex_fixed (digits : nat) (z : Z) : str :=
  match digits with
  | O => []
  | S k => hex_fixed k (z / 16) ++ [hex_digit (z mod 16)]
  end.

(** [str(file_id)]: 24 hexadecimal digits. *)
Definition str_of_oid (o : ObjectId) : str := hex_fixed 24 (oid_value o).

Record MongoClient := mk_client { client_uri : str }.

Record GridFS := mk_gridfs {
  fs_client : MongoClient;
  fs_db : str;
  fs_collection : str
}.

(** What Streamlit shows.  Static page furniture (title, headings,
    footer, the recorder widgets themselves) is left out. *)
Inductive StEvent :=
| StWarning (msg : str)
| StError (msg : str)
| StSuccess (msg : str)
| StWrite (msg : str)
| StExpanderWrite (label msg : str)
| StInfo (msg : str)
| StMarkdown (msg : str).

Record World := mk_world {
  g_mongo_client : option MongoClient;        (* global [_mongo_client] *)
  g_mongo_fs : option GridFS;                 (* global [_mongo_fs] *)
  put_calls : list PutRequest;                (* every [fs.put] invocation *)
  bucket : list (ObjectId * PutRequest);      (* files the store holds *)
  st_out : list StEvent;                      (* the page, oldest first *)
  clock_reads : nat                           (* readings of the clock so far *)
}.

(** Configuration and collaborators whose answers the script only
    consumes. *)
Record Env := mk_env {
  MONGO_URI : str;
  MONGO_DB : str;
  MONGO_BUCKET : str;
  (** [sf.read(io.BytesIO(b), dtype=.., always_2d=..)]: the samples, or
      [None], and the sample rate. *)
  sf_read : bytes -> dtype -> bool -> result (option (nd float) * Z);
  (** [scipy.signal.resample_poly(x, up=.., down=..)] *)
  resample_poly : ndarray -> Z -> Z -> result ndarray;
  (** the [MongoClient(uri)] constructor *)
  mongo_connect : str -> result MongoClient;
  (** the server's answer to [fs.put] given what the bucket holds *)
  gridfs_put : GridFS -> list (ObjectId * PutRequest) -> PutRequest
               -> result ObjectId;
  (** [int(time.time() * 1000)] at the k-th reading of the clock *)
  time_ms : nat -> Z
}.

(** ** Stateful computations that may raise *)

Definition M (A : Type) : Type := World -> result A * World.

Definition ret {A} (a : A) : M A := fun w => (Ok a, w).

Definition raise {A} (e : exn) : M A := fun w => (Raise e, w).

Definition bind {A B} (m : M A) (k : A -> M B) : M B :=
  fun w =>
    match m w with
    | (Ok a, w') => k a w'
    | (Raise e, w') => (Raise e, w')
    end.

(** [try: m except Exception as e: h e] *)
Definition try_except {A} (m : M A) (h : exn -> M A) : M A :=
  fun w =>
    match m w with
    | (Ok a, w') => (Ok a, w')
    | (Raise e, w') => h e w'
    end.

Definition lift {A} (r : result A) : M A := fun w => (r, w).

Declare Scope m_scope.
Delimit Scope m_scope with M.
Notation "x <- m ;; k" := (bind m (fun x => k))
  (at level 61, m at next level, right associativity) : m_scope.
Notation "m ;;; k" := (bind m (fun _ => k))
  (at level 61, right associativity) : m_scope.

Local Open Scope m_scope.

Definition st_emit (ev : StEvent) : M unit :=
  fun w => (Ok tt, mk_world (g_mongo_client w) (g_mongo_fs w) (put_calls w)
                            (bucket w) (st_out w ++ [ev]) (clock_reads w)).

Definition set_mongo_client (c : MongoClient) : M unit :=
  fun w => (Ok tt, mk_world (Some c) (g_mongo_fs w) (put_calls w)
                            (bucket w) (st_out w) (clock_reads w)).

Definition set_mongo_fs (fs : GridFS) : M unit :=
  fun w => (Ok tt, mk_world (g_mongo_client w) (Some fs) (put_calls w)
                            (bucket w) (st_out w) (clock_reads w)).

(** [int(time.time() * 1000)] *)
Definition now_ms (E : Env) : M Z :=
  fun w => (Ok (time_ms E (clock_reads w)),
            mk_world (g_mongo_client w) (g_mongo_fs w) (put_calls w)
                     (bucket w) (st_out w) (S (clock_reads w))).

(** [fs.put(data, filename=.., contentType=.., metadata=..)]: the call
    is logged; the file is in the bucket only if the server accepts. *)
Definition fs_put (E : Env) (fs : GridFS) (req : PutRequest) : M ObjectId :=
  fun w =>
    let calls := put_calls w ++ [req] in
    match gridfs_put E fs (bucket w) req with
    | Ok id =>
        (Ok id, mk_world (g_mongo_client w) (g_mongo_fs w) calls
                         (bucket w ++ [(id, req)]) (st_out w) (clock_reads w))
    | Raise e =>
        (Raise e, mk_world (g_mongo_client w) (g_mongo_fs w) calls
                           (bucket w) (st_out w) (clock_reads w))
    end.

(** [get_gridfs], lines 45 to 54. *)
Definition get_gridfs (E : Env) : M (option GridFS) :=
  if negb (truthy (MONGO_URI E)) then ret None
  else
    fun w =>
      match g_mongo_fs w with
      | Some fs => (Ok (Some fs), w)
      | None =>
          (c <- lift (mongo_connect E (MONGO_URI E)) ;;
           set_mongo_client c ;;;
           let fs := mk_gridfs c (MONGO_DB E) (MONGO_BUCKET E) in
           set_mongo_fs fs ;;;
           ret (Some fs)) w
      end.

(** The file name of a stored recording, lines 102 and 103. *)
Definition spell_slug (spell : str) : str :=
  lower (strip_by (N.eqb 95)
           (re_sub_runs (fun c => negb (is_alnum c)) (u "_") spell)).

Definition wav_filename (spell username : str) (ts : Z) : str :=
  (spell_slug spell ++ u "_" ++ username ++ u "_" ++ str_of_Z ts ++ u ".wav")%list.

(** The body of the [try] block of [save_audio_to_mongo]. *)
Definition save_audio_body (E : Env) (audio_bytes : bytes)
                           (spell username : str) : M (option str) :=
  r <- lift (sf_read E audio_bytes Float32 false) ;;
  let '(audio, sr) := r in
  match audio with
  | None => ret None
  | Some v =>
      if size v =? 0 then ret None
      else
        let audio := to_mono (mk_ndarray Float32 v) in
        audio <- lift (resample_to_target (resample_poly E) audio sr TARGET_SR) ;;
        let pcm16 := quantize audio in
        wav_bytes <- lift (Wav.write TARGET_SR pcm16) ;;
        fs <- get_gridfs E ;;
        match fs with
        | None => ret None
        | Some fs =>
            ts <- now_ms E ;;
            let filename := wav_filename spell username ts in
            let metadata := mk_metadata username spell ts TARGET_SR (u "wav") in
            file_id <- fs_put E fs (mk_put wav_bytes filename (u "audio/wav") metadata) ;;
            ret (Some (str_of_oid file_id))
        end
  end.

(** [save_audio_to_mongo], lines 80 to 115. *)
Definition save_audio_to_mongo (E : Env) (audio_bytes : bytes)
                               (spell username : str) : M (option str) :=
  try_except
    (save_audio_body E audio_bytes spell username)
    (fun e => st_emit (StError (u "Error processing audio: " ++ e)) ;;;
              ret None).

(** ** The page and the submission *)

Definition SPELLS : list str :=
  map u ["Lumos"; "Nox"; "Alohomora"; "Wingardium Leviosa"; "Accio"; "Reparo"]%string.

(** The [audio_files] dictionary: keys in insertion order, one entry
    per key.  The value is the content that [read()] returns. *)
Definition dict := list (str * bytes).

Fixpoint dict_get (d : dict) (k : str) : option bytes :=
  match d with
  | [] => None
  | (k', v) :: r => if str_eqb k' k then Some v else dict_get r k
  end.

(** [d[k] = v] *)
Fixpoint dict_set (d : dict) (k : str) (v : bytes) : dict :=
  match d with
  | [] => [(k, v)]
  | (k', v') :: r =>
      if str_eqb k' k then (k', v) :: r else (k', v') :: dict_set r k v
  end.

Definition dict_len (d : dict) : Z := Z.of_nat (length d).

(** Lines 137 to 150: one recorder per spell, in the order of [SPELLS];
    [audio_input spell] is what the widget of that spell holds. *)
Fixpoint collect_audio_files (audio_input : str -> option bytes)
                             (spells : list str) (audio_files : dict) : dict :=
  match spells with
  | [] => audio_files
  | spell :: rest =>
      match audio_input spell with
      | Some audio_file =>
          collect_audio_files audio_input rest (dict_set audio_files spell audio_file)
      | None => collect_audio_files audio_input rest audio_files
      end
  end.

(** A saved entry is kept as the pair that line 173 formats. *)
Definition saved_entry := (str * str)%type.

Definition saved_line (e : saved_entry) : str :=
  (fst e ++ [32; 8594; 32]%N ++ u "id " ++ snd e)%list.

(** The loop of lines 168 to 177 over the labels still to visit. *)
Fixpoint process_spells (E : Env) (spells : list str) (audio_files : dict)
                        (user : str) (saved : list saved_entry)
                        (skipped : list str)
  : M (list saved_entry * list str) :=
  match spells with
  | [] => ret (saved, skipped)
  | spell :: rest =>
      match dict_get audio_files spell with
      | Some audio_bytes =>
          file_id <- save_audio_to_mongo E audio_bytes spell user ;;
          match file_id with
          | Some id =>
              if truthy id
              then process_spells E rest audio_files user
                                  (saved ++ [(spell, id)]) skipped
              else process_spells E rest audio_files user saved
                                  (skipped ++ [spell])
          | None =>
              process_spells E rest audio_files user saved (skipped ++ [spell])
          end
      | None =>
          process_spells E rest audio_files user saved (skipped ++ [spell])
      end
  end.

Fixpoint for_each {A} (f : A -> M unit) (l : list A) : M unit :=
  match l with
  | [] => ret tt
  | x :: r => f x ;;; for_each f r
  end.

Inductive Outcome :=
| NotSubmitted
| Rejected
| Report (saved : list saved_entry) (skipped : list str).

(** Lines 158 to 190: what a press of the submit button does. *)
Definition main_submit (E : Env) (username : str) (audio_files : dict)
  : M Outcome :=
  let selected_count := dict_len audio_files in
  if negb (truthy (strip username)) then
    st_emit (StError (u "Please enter your name")) ;;; ret Rejected
  else if selected_count =? 0 then
    st_emit (StError (u "Please upload at least one spell recording")) ;;;
    ret Rejected
  else
    let user := sanitize_username (Some username) in
    r <- process_spells E SPELLS audio_files user [] [] ;;
    let '(saved, skipped) := r in
    (if negb (Nat.eqb (length saved) 0) then
       st_emit (StSuccess (9989%N :: u " Saved recordings:")) ;;;
       for_each (fun item => st_emit (StWrite (u "- " ++ saved_line item))) saved
     else ret tt) ;;;
    (if negb (Nat.eqb (length skipped) 0) then
       for_each (fun spell =>
                   st_emit (StExpanderWrite
                              ([8505; 65039]%N ++ u " Missing (not provided)")
                              (u "- " ++ spell))) skipped
     else ret tt) ;;;
    st_emit (StInfo (u "**Total saved this submission: "
                     ++ str_of_Z (Z.of_nat (length saved)) ++ u "**")) ;;;
    ret (Report saved skipped).

(** [main], lines 118 to 201. *)
Definition main (E : Env) (username : str) (audio_input : str -> option bytes)
                (submit_clicked : bool) : M Outcome :=
  (if negb (truthy (MONGO_URI E)) then
     st_emit (StWarning ([9888; 65039]%N ++ u " Database not configured. Set MONGO_URI in your environment or .env file."))
   else ret tt) ;;;
  let audio_files := collect_audio_files audio_input SPELLS [] in
  let selected_count := dict_len audio_files in
  st_emit (StMarkdown (u "**Selected: " ++ str_of_Z selected_count ++ u "/6**")) ;;;
  if submit_clicked then main_submit E username audio_files
  else ret NotSubmitted.

(** ** A small concrete environment

    A toy decoder, resampler and store on which the definitions above
    can be run.  The toy container is one layout byte (1 mono, 2
    stereo), one rate byte (0 for 16000 Hz, 1 for 8000 Hz, otherwise
    44100 Hz) and then one byte per sample, read as [(b - 128) / 64]. *)

Module Demo.

Definition sample_of_byte (b : byte) : float :=
  fdiv Float32 (of_Z Float32 (Z_of_byte b - 128)) (of_Z Float32 64).

Fixpoint pairs {A} (l : list A) : list (list A) :=
  match l with
  | a :: b :: r => [a; b] :: pairs r
  | _ => []
  end.

Definition rate_of_byte (b : byte) : Z :=
  match Z_of_byte b with
  | 0 => 16000
  | 1 => 8000
  | _ => 44100
  end.

Definition decode (b : bytes) (d : dtype) (always_2d : bool)
  : result (option (nd float) * Z) :=
  match b with
  | layout :: rate :: payload =>
      let xs := map sample_of_byte payload in
      match Z_of_byte layout with
      | 1 => Ok (Some (if always_2d then Arr2 (map (fun x => [x]) xs) else Arr1 xs),
                 rate_of_byte rate)
      | 2 => Ok (Some (Arr2 (pairs xs)), rate_of_byte rate)
      | _ => Raise (u "Format not recognised.")
      end
  | _ => Raise (u "Format not recognised.")
  end.

(** Sample-and-hold along axis 0: output item [i] is input item
    [i * down / up]. *)
Definition hold {A} (xs : list A) (up down : Z) : list A :=
  let n := Z.of_nat (length xs) in
  let m := (n * up + down - 1) / down in
  flat_map (fun i => match nth_error xs (Z.to_nat (Z.of_nat i * down / up)) with
                     | Some x => [x]
                     | None => []
                     end)
           (seq 0 (Z.to_nat m)).

Definition resample (a : ndarray) (up down : Z) : result ndarray :=
  if (up <? 1) || (down <? 1) then Raise (u "up and down must be >= 1")
  else
    Ok (mk_ndarray (dtype_of a)
          match values a with
          | Arr1 xs => Arr1 (hold xs up down)
          | Arr2 rows => Arr2 (hold rows up down)
          end).

Definition next_id (b : list (ObjectId * PutRequest)) : ObjectId :=
  mk_oid (Z.of_nat (length b) + 1).

(** Every collaborator works. *)
Definition env : Env :=
  mk_env (u "mongodb://localhost:27017") (u "spells") (u "fs")
         decode resample
         (fun uri => Ok (mk_client uri))
         (fun _ b _ => Ok (next_id b))
         (fun k => 1700000000000 + Z.of_nat k).

(** No connection string. *)
Definition env_no_uri : Env :=
  mk_env [] (u "spells") (u "fs")
         decode resample
         (fun uri => Ok (mk_client uri))
         (fun _ b _ => Ok (next_id b))
         (fun k => 1700000000000 + Z.of_nat k).

(** The server refuses every write. *)
Definition env_put_fails : Env :=
  mk_env (u "mongodb://localhost:27017") (u "spells") (u "fs")
         decode resample
         (fun uri => Ok (mk_client uri))
         (fun _ _ _ => Raise (u "connection refused"))
         (fun k => 1700000000000 + Z.of_nat k).

(** The server refuses the write stamped with the first reading of
    the clock and accepts every other one. *)
Definition env_flaky : Env :=
  mk_env (u "mongodb://localhost:27017") (u "spells") (u "fs")
         decode resample
         (fun uri => Ok (mk_client uri))
         (fun _ b req =>
            if md_timestamp_ms (put_metadata req) =? 1700000000000
            then Raise (u "connection reset")
            else Ok (next_id b))
         (fun k => 1700000000000 + Z.of_nat k).

Definition w0 : World := mk_world None None [] [] [] 0.

(** mono, 16000 Hz, samples -2.0, -1.0, 0.0, 0.5, 1.0, 1.984375 *)
Definition rec_mono : bytes := [x01; x00; x00; x40; x80; xa0; xc0; xff].
(** stereo, 8000 Hz, two frames *)
Definition rec_stereo : bytes := [x02; x01; xa0; x90; x40; xc0].
(** not audio *)
Definition rec_bad : bytes := [x09; x09; x09].

End Demo.

(** ** The identity as the specification words it

    Lower-case; every maximal run of whitespace becomes one
    underscore; characters outside [[a-z0-9_-]] are dropped; an empty
    or absent text is the placeholder.  Nothing is trimmed.  This is
    the reading that [sanitize_username] is compared with below. *)
Definition sanitize_as_worded (name : option str) : str :=
  match name with
  | None => anon
  | Some s =>
      str_or (filter is_ident_char (re_sub_runs isspace (u "_") (lower s))) anon
  end.

(** ** One sample through lines 89 to 92 *)

Definition minus_one (d : dtype) : float := of_Z d (-1).
Definition plus_one (d : dtype) : float := of_Z d 1.

(** What [quantize] does to a single sample of an array of type [d]. *)
Definition quantize1 (d : dtype) (x : float) : Z :=
  to_int16 (fmul d (clip1 (minus_one d) (plus_one d) x) (of_Z d 32767)).

(** [n / k] as a [float32] constant. *)
Definition f32 (n k : Z) : float :=
  fdiv Float32 (of_Z Float32 n) (of_Z Float32 k).

(** The mantissa of 1.0 in the format [d]. *)
Definition unit_mantissa (d : dtype) : positive := Z.to_pos (2 ^ (prec d - 1)).

(** ** Views of the pipeline used in the statements *)

(** The bytes 8 to 39 of the file that [Wav.write] makes of a mono
    array at 16000 Hz: "WAVE", the [fmt ] chunk, and "data". *)
Definition wav_header_mid : bytes :=
  Eval vm_compute in
    (list_byte_of_string "WAVE" ++ list_byte_of_string "fmt "
     ++ le_bytes 4 16 ++ le_bytes 2 1 ++ le_bytes 2 1 ++ le_bytes 4 16000
     ++ le_bytes 4 32000 ++ le_bytes 2 2 ++ le_bytes 2 16
     ++ list_byte_of_string "data")%list.

Local Open Scope result_scope.

(** Lines 83 to 95 on their own: decode, reduce, resample, clip,
    quantise, encode.  [Ok None] is the early [return None] on an
    absent or empty buffer. *)
Definition normalize (E : Env) (audio_bytes : bytes) : result (option bytes) :=
  r <- sf_read E audio_bytes Float32 false ;;
  let '(audio, sr) := r in
  match audio with
  | None => Ok None
  | Some v =>
      if size v =? 0 then Ok None
      else
        audio <- resample_to_target (resample_poly E)
                   (to_mono (mk_ndarray Float32 v)) sr TARGET_SR ;;
        wav_bytes <- Wav.write TARGET_SR (quantize audio) ;;
        Ok (Some wav_bytes)
  end.

Local Close Scope result_scope.

(** The [fs.put] arguments of lines 101 to 111. *)
Definition put_request (wav_bytes : bytes) (spell username : str) (ts : Z)
  : PutRequest :=
  mk_put wav_bytes (wav_filename spell username ts) (u "audio/wav")
         (mk_metadata username spell ts TARGET_SR (u "wav")).

(** Lines 101 to 112 on their own: the write through a handle. *)
Definition put_wav (E : Env) (fs : GridFS) (wav_bytes : bytes)
                   (spell username : str) : M (option str) :=
  ts <- now_ms E ;;
  file_id <- fs_put E fs (put_request wav_bytes spell username ts) ;;
  ret (Some (str_of_oid file_id)).

(** Lines 97 to 112 on their own. *)
Definition store_wav (E : Env) (wav_bytes : bytes) (spell username : str)
  : M (option str) :=
  fs <- get_gridfs E ;;
  match fs with
  | None => ret None
  | Some fs => put_wav E fs wav_bytes spell username
  end.

(** The ways one call of [save_audio_to_mongo] can end, with what
    it leaves in the log of [fs.put] calls and in the bucket. *)
Inductive save_outcome (E : Env) (audio_bytes : bytes) (spell user : str)
                       (w : World) : option str -> World -> Prop :=
| SaveNotNormalized w' :
    (forall wav, normalize E audio_bytes <> Ok (Some wav)) ->
    put_calls w' = put_calls w -> bucket w' = bucket w ->
    g_mongo_fs w' = g_mongo_fs w ->
    save_outcome E audio_bytes spell user w None w'
| SaveNoUri wav :
    normalize E audio_bytes = Ok (Some wav) ->
    MONGO_URI E = [] ->
    save_outcome E audio_bytes spell user w None w
| SaveConnectRaised wav e w' :
    normalize E audio_bytes = Ok (Some wav) ->
    MONGO_URI E <> [] ->
    g_mongo_fs w = None ->
    mongo_connect E (MONGO_URI E) = Raise e ->
    put_calls w' = put_calls w -> bucket w' = bucket w ->
    g_mongo_fs w' = None ->
    save_outcome E audio_bytes spell user w None w'
| SavePutRaised wav fs ts e w' :
    normalize E audio_bytes = Ok (Some wav) ->
    MONGO_URI E <> [] ->
    g_mongo_fs w = Some fs
    \/ (g_mongo_fs w = None /\ mongo_connect E (MONGO_URI E) = Ok (fs_client fs)) ->
    gridfs_put E fs (bucket w) (put_request wav spell user ts) = Raise e ->
    put_calls w' = put_calls w ++ [put_request wav spell user ts] ->
    bucket w' = bucket w ->
    save_outcome E audio_bytes spell user w None w'
| SaveStored wav fs ts id w' :
    normalize E audio_bytes = Ok (Some wav) ->
    MONGO_URI E <> [] ->
    g_mongo_fs w = Some fs
    \/ (g_mongo_fs w = None /\ mongo_connect E (MONGO_URI E) = Ok (fs_client fs)) ->
    gridfs_put E fs (bucket w) (put_request wav spell user ts) = Ok id ->
    put_calls w' = put_calls w ++ [put_request wav spell user ts] ->
    bucket w' = bucket w ++ [(id, put_request wav spell user ts)] ->
    save_outcome E audio_bytes spell user w (Some (str_of_oid id)) w'.

(** One pass of the loop over [spells], label by label: the saved
    entries and the skipped labels it adds, in the order it adds
    them. *)
Inductive loop_run (E : Env) (audio_files : dict) (user : str)
  : list str -> World -> list saved_entry -> list str -> World -> Prop :=
| LoopDone w : loop_run E audio_files user [] w [] [] w
| LoopAbsent spell rest w saved skipped w' :
    dict_get audio_files spell = None ->
    loop_run E audio_files user rest w saved skipped w' ->
    loop_run E audio_files user (spell :: rest) w saved (spell :: skipped) w'
| LoopSaved spell rest b id w w1 saved skipped w' :
    dict_get audio_files spell = Some b ->
    save_outcome E b spell user w (Some id) w1 ->
    loop_run E audio_files user rest w1 saved skipped w' ->
    loop_run E audio_files user (spell :: rest) w ((spell, id) :: saved) skipped w'
| LoopFailed spell rest b w w1 saved skipped w' :
    dict_get audio_files spell = Some b ->
    save_outcome E b spell user w None w1 ->
    loop_run E audio_files user rest w1 saved skipped w' ->
    loop_run E audio_files user (spell :: rest) w saved (spell :: skipped) w'.

(** The world in which the loop arrives at the label that follows the
    labels [pre]. *)
Definition reach (E : Env) (audio_files : dict) (user : str)
                 (pre : list str) (w : World) : World :=
  snd (process_spells E pre audio_files user [] [] w).

(** The exception [e] is raised while [save_audio_to_mongo] works on
    [audio_bytes] in the world [w]: by the steps up to the encoding
    (decoding, channel reduction, resampling, quantisation, the WAV
    writer), by [get_gridfs], or by [fs.put] on the handle, the bucket
    and the clock as they are right then. *)
Definition raises_in_call (E : Env) (audio_bytes : bytes) (spell user : str)
                          (w : World) (e : exn) : Prop :=
  normalize E audio_bytes = Raise e
  \/ exists wav,
       normalize E audio_bytes = Ok (Some wav)
       /\ (fst (get_gridfs E w) = Raise e
           \/ exists fs,
                fst (get_gridfs E w) = Ok (Some fs)
                /\ gridfs_put E fs (bucket w)
                     (put_request wav spell user (time_ms E (clock_reads w)))
                   = Raise e).

(** [l] is [l1] and [l2] shuffled together, each keeping its order. *)
Inductive interleave {A : Type} : list A -> list A -> list A -> Prop :=
| interleave_nil : interleave [] [] []
| interleave_left x l1 l2 l :
    interleave l1 l2 l -> interleave (x :: l1) l2 (x :: l)
| interleave_right x l1 l2 l :
    interleave l1 l2 l -> interleave l1 (x :: l2) (x :: l).

Definition int16_range (z : Z) : Prop := -32768 <= z <= 32767.

(** [s] is a floating-point sum of the items of [row]: every item is
    added exactly once, in some order and some grouping, possibly
    together with the [0.0] that starts an accumulator. *)
Inductive float_sum (d : dtype) : list float -> float -> Prop :=
| float_sum_nil : float_sum d [] zero
| float_sum_one x : float_sum d [x] x
| float_sum_add l1 l2 a b :
    float_sum d l1 a -> float_sum d l2 b ->
    float_sum d (l1 ++ l2) (fadd d a b)
| float_sum_perm l l' a :
    Permutation l l' -> float_sum d l a -> float_sum d l' a.

(** What the script relies on from [resample_poly]: resampling along
    axis 0 returns an array with as many dimensions as its input. *)
Definition keeps_ndim (rp : ndarray -> Z -> Z -> result ndarray) : Prop :=
  forall a up down a', rp a up down = Ok a' -> ndim (values a') = ndim (values a).

(** Events on the page leave the store alone. *)
Definition same_store (w w' : World) : Prop :=
  g_mongo_client w' = g_mongo_client w /\ g_mongo_fs w' = g_mongo_fs w
  /\ put_calls w' = put_calls w /\ bucket w' = bucket w
  /\ clock_reads w' = clock_reads w.

(** What lines 180 to 190 show for a report. *)
Definition report_events (saved : list saved_entry) (skipped : list str) : list StEvent :=
  (match saved with
   | [] => []
   | _ => StSuccess (9989%N :: u " Saved recordings:")
          :: map (fun item => StWrite (u "- " ++ saved_line item)) saved
   end)
  ++ map (fun spell => StExpanderWrite ([8505; 65039]%N ++ u " Missing (not provided)")
                                       (u "- " ++ spell)) skipped
  ++ [StInfo (u "**Total saved this submission: "
              ++ str_of_Z (Z.of_nat (length saved)) ++ u "**")].

(** ** Loading [.env], lines 17 to 36 *)

Module Dotenv.

Local Open Scope N_scope.

(** The line boundaries of [str.splitlines]. *)
Definition is_linebreak (c : N) : bool :=
  ((10 <=? c) && (c <=? 13)) || ((28 <=? c) && (c <=? 30))
  || (c =? 133) || (c =? 8232) || (c =? 8233).

(** [s.splitlines()]: [cur] holds, last character first, the line
    being read.  A carriage return followed by a line feed is one
    boundary; a boundary at the very end opens no further line. *)
Fixpoint splitlines_from (cur : str) (s : str) : list str :=
  match s with
  | [] => match cur with [] => [] | _ => [rev cur] end
  | c :: r =>
      if is_linebreak c then
        rev cur ::
        (if c =? 13 then
           match r with
           | x :: r' => if x =? 10 then splitlines_from [] r'
                        else splitlines_from [] r
           | [] => splitlines_from [] r
           end
         else splitlines_from [] r)
      else splitlines_from (c :: cur) r
  end.

Definition splitlines (s : str) : list str := splitlines_from [] s.

(** [line.startswith("#")] *)
Definition starts_with_hash (line : str) : bool :=
  match line with c :: _ => c =? 35 | [] => false end.

(** ["=" in line] *)
Definition has_equals (line : str) : bool := existsb (N.eqb 61) line.

(** [line.split("=", 1)] of a line that holds an equals sign: the text
    before the first one and the text after it. *)
Fixpoint split_once (line : str) : str * str :=
  match line with
  | [] => ([], [])
  | c :: r => if c =? 61 then ([], r)
              else let '(k, v) := split_once r in (c :: k, v)
  end.

(** Lines 22 to 27: the key and value a line assigns, if it assigns. *)
Definition parse_line (line : str) : option (str * str) :=
  let line := strip line in
  if negb (truthy line) || starts_with_hash line || negb (has_equals line)
  then None
  else
    let '(key, val) := split_once line in
    let key := strip key in
    let val := strip_by (N.eqb 39) (strip_by (N.eqb 34) (strip val)) in
    Some (key, val).

(** [os.environ]: variables in the order they were set. *)
Definition environ := list (str * str).

Fixpoint env_get (env : environ) (key : str) : option str :=
  match env with
  | [] => None
  | (k, v) :: r => if str_eqb k key then Some v else env_get r key
  end.

Fixpoint env_replace (env : environ) (key val : str) : environ :=
  match env with
  | [] => [(key, val)]
  | (k, v) :: r =>
      if str_eqb k key then (k, val) :: r else (k, v) :: env_replace r key val
  end.

Definition has_nul (s : str) : bool := existsb (N.eqb 0) s.

(** [os.environ[key] = val]; the C library refuses a NUL character. *)
Definition env_setitem (env : environ) (key val : str) : result environ :=
  if has_nul key || has_nul val then Raise (u "embedded null byte")
  else Ok (env_replace env key val).

(** The loop of lines 21 to 29 over the lines still to read.  What was
    set before an exception stays set. *)
Fixpoint load_env_lines (lines : list str) (env : environ)
  : result unit * environ :=
  match lines with
  | [] => (Ok tt, env)
  | line :: rest =>
      match parse_line line with
      | None => load_env_lines rest env
      | Some (key, val) =>
          if truthy key && negb (match env_get env key with
                                 | Some _ => true | None => false end)
          then match env_setitem env key val with
               | Ok env' => load_env_lines rest env'
               | Raise e => (Raise e, env)
               end
          else load_env_lines rest env
      end
  end.

(** [load_env], lines 17 to 29.  [file] is the text of [.env] in the
    working directory, [None] when there is no such file. *)
Definition load_env (file : option str) (env : environ)
  : result unit * environ :=
  match file with
  | None => (Ok tt, env)
  | Some text => load_env_lines (splitlines text) env
  end.

(** [os.getenv(key, default)] *)
Definition getenv (env : environ) (key default : str) : str :=
  match env_get env key with Some v => v | None => default end.

(** Lines 34 to 36: the three settings read once the file is loaded. *)
Definition read_config (env : environ) : str * str * str :=
  (getenv env (u "MONGO_URI") (u ""),
   getenv env (u "MONGO_DB") (u "spells"),
   getenv env (u "MONGO_BUCKET") (u "fs")).

(** The value the loop gives a key that was not set before: the value
    of the first line that assigns it. *)
Fixpoint first_assignment (lines : list str) (key : str) : option str :=
  match lines with
  | [] => None
  | line :: rest =>
      match parse_line line with
      | Some (k, v) =>
          if truthy k && str_eqb k key then Some v
          else first_assignment rest key
      | None => first_assignment rest key
      end
  end.

(** A text that [strip(chars)] leaves alone at both ends. *)
Definition clear_ends (p : N -> bool) (s : str) : Prop :=
  match s with [] => True | c :: _ => p c = false end
  /\ match rev s with [] => True | c :: _ => p c = false end.

End Dotenv.

Import Dotenv.

(** ** Further views used in the statements *)

(** The characters of a stored file name. *)
Definition is_filename_char (c : N) : bool :=
  is_ident_char c || N.eqb c 46.

(** The characters of a slug. *)
Definition is_slug_char (c : N) : bool :=
  is_lower c || is_digit c || N.eqb c 95.

(** The message of line 114. *)
Definition processing_error (e : exn) : StEvent :=
  StError (u "Error processing audio: " ++ e).

(** * Properties *)

(** ** Text *)

Section TextFacts.

Local Open Scope N_scope.

(** Decide every comparison of the goal from the hypotheses. *)
Ltac decide_cmp :=
  repeat match goal with
         | |- context [?a <=? ?b] =>
             first [ replace (a <=? b) with true by (symmetry; apply N.leb_le; lia)
                   | replace (a <=? b) with false by (symmetry; apply N.leb_gt; lia) ]
         | |- context [?a =? ?b] =>
             first [ replace (a =? b) with false by (symmetry; apply N.eqb_neq; lia)
                   | replace (a =? b) with true by (symmetry; apply N.eqb_eq; lia) ]
         end.

Lemma is_upper_range c : is_upper c = true <-> 65 <= c <= 90.
Proof.
  unfold is_upper. rewrite andb_true_iff, !N.leb_le. tauto.
Qed.

Lemma upper_not_space c : is_upper c = true -> isspace c = false.
Proof.
  intros H. apply is_upper_range in H.
  unfold isspace. decide_cmp. reflexivity.
Qed.

Lemma lowered_not_space c : is_upper c = true -> isspace (c + 32) = false.
Proof.
  intros H. apply is_upper_range in H.
  unfold isspace. decide_cmp. reflexivity.
Qed.

Lemma lower_char_isspace c : isspace (lower_char c) = isspace c.
Proof.
  unfold lower_char. destruct (is_upper c) eqn:Hu; [|reflexivity].
  now rewrite (lowered_not_space c Hu), (upper_not_space c Hu).
Qed.

Lemma lower_char_ident c : is_ident_char (lower_char c) = is_name_char c.
Proof.
  unfold lower_char, is_ident_char, is_name_char, is_alnum.
  destruct (is_upper c) eqn:Hu.
  - apply is_upper_range in Hu.
    unfold is_lower, is_digit. decide_cmp. reflexivity.
  - now rewrite orb_false_r.
Qed.

Lemma re_sub_each_filter (p : N -> bool) s :
  re_sub_each (fun c => negb (p c)) [] s = filter p s.
Proof.
  unfold re_sub_each.
  induction s as [|c s IH]; simpl; [reflexivity|].
  destruct (p c); simpl; now rewrite IH.
Qed.

Lemma lower_filter s :
  lower (filter is_name_char s) = filter is_ident_char (lower s).
Proof.
  induction s as [|c s IH]; simpl; [reflexivity|].
  rewrite lower_char_ident.
  destruct (is_name_char c); simpl; now rewrite IH.
Qed.

Lemma lower_runs b s :
  lower (re_sub_runs_from isspace (u "_") b s)
  = re_sub_runs_from isspace (u "_") b (lower s).
Proof.
  unfold lower.
  revert b; induction s as [|c s IH]; intros b; simpl; [reflexivity|].
  rewrite lower_char_isspace.
  destruct (isspace c).
  - rewrite map_app, IH. now destruct b.
  - simpl. now rewrite IH.
Qed.

(** Where the script's pipeline of substitutions and the worded one
    agree: on text that has been trimmed already. *)
Lemma sanitize_pipeline_eq s :
  lower (re_sub_each (fun c => negb (is_name_char c)) []
           (re_sub_runs isspace (u "_") s))
  = filter is_ident_char (re_sub_runs isspace (u "_") (lower s)).
Proof.
  rewrite re_sub_each_filter, lower_filter.
  unfold re_sub_runs. now rewrite lower_runs.
Qed.

Lemma filter_ident_all s : Forall (fun c => is_ident_char c = true) (filter is_ident_char s).
Proof.
  induction s as [|c s IH]; simpl; [constructor|].
  destruct (is_ident_char c) eqn:Hc; [constructor; assumption|assumption].
Qed.

Lemma str_or_anon_nonempty s : str_or s anon <> [].
Proof. destruct s; discriminate. Qed.

Lemma str_or_anon_ident s :
  Forall (fun c => is_ident_char c = true) s ->
  Forall (fun c => is_ident_char c = true) (str_or s anon).
Proof.
  intros H. destruct s; simpl; [|exact H].
  repeat constructor.
Qed.

Lemma sanitize_username_unfold s :
  sanitize_username (Some s)
  = str_or (filter is_ident_char (re_sub_runs isspace (u "_") (lower (strip s)))) anon.
Proof.
  unfold sanitize_username.
  destruct s as [|c s]; [reflexivity|].
  cbv zeta. simpl negb. cbv iota.
  now rewrite sanitize_pipeline_eq.
Qed.

Lemma sanitize_username_nonempty name : sanitize_username name <> [].
Proof.
  destruct name as [s|]; [|discriminate].
  rewrite sanitize_username_unfold. apply str_or_anon_nonempty.
Qed.

Lemma sanitize_username_charset name :
  Forall (fun c => is_ident_char c = true) (sanitize_username name).
Proof.
  destruct name as [s|]; [|repeat constructor].
  rewrite sanitize_username_unfold.
  apply str_or_anon_ident, filter_ident_all.
Qed.

End TextFacts.

(** C4, as amended.  [sanitize_username] first trims leading and
    trailing whitespace; on the trimmed text it lower-cases, turns each
    remaining maximal run of whitespace into one underscore and drops
    every character outside [[a-z0-9_-]]; an empty result or an absent
    name gives "anon".  In particular "Harry Potter" gives
    "harry_potter", the empty string and the absent name give "anon",
    and "a!!b  c" gives "ab_c". *)
Theorem sanitize_username_trims_then_collapses :
  (forall name, sanitize_username name = sanitize_as_worded (option_map strip name))
  /\ sanitize_username (Some (u "Harry Potter")) = u "harry_potter"
  /\ sanitize_username (Some (u "")) = u "anon"
  /\ sanitize_username None = u "anon"
  /\ sanitize_username (Some (u "a!!b  c")) = u "ab_c".
Proof.
  split; [|repeat split; reflexivity].
  intros [s|]; [|reflexivity].
  simpl option_map. unfold sanitize_as_worded.
  apply sanitize_username_unfold.
Qed.

(** C4, as worded, fails on a name with leading or trailing whitespace:
    the script trims such runs instead of turning them into
    underscores. *)
Lemma sanitize_username_not_as_worded :
  sanitize_username (Some (u " Harry Potter ")) = u "harry_potter"
  /\ sanitize_as_worded (Some (u " Harry Potter ")) = u "_harry_potter_"
  /\ ~ (forall name, sanitize_username name = sanitize_as_worded name).
Proof.
  split; [reflexivity|]. split; [reflexivity|].
  intros H. specialize (H (Some (u " Harry Potter "))). discriminate H.
Qed.

(** ** Channel reduction *)

Lemma to_mono_2d d rows :
  to_mono (mk_ndarray d (Arr2 rows)) = mk_ndarray d (Arr1 (map (fmean d) rows)).
Proof. reflexivity. Qed.

Lemma map_repeat {A B} (f : A -> B) x n : map f (repeat x n) = repeat (f x) n.
Proof. induction n; simpl; congruence. Qed.

Lemma float_sum_seq d a : forall l res,
  float_sum d l res -> float_sum d (l ++ a) (add_seq d res a).
Proof.
  induction a as [|x a IH]; intros l res H.
  - rewrite app_nil_r. exact H.
  - change (add_seq d res (x :: a)) with (add_seq d (fadd d res x) a).
    replace (l ++ x :: a) with ((l ++ [x]) ++ a) by now rewrite <- app_assoc.
    apply IH. apply float_sum_add; [exact H|constructor].
Qed.

Lemma add_block_length d r : forall blk, length (add_block d r blk) = length r.
Proof.
  induction r as [|x r IH]; intros [|y blk]; cbn; try reflexivity.
  now rewrite IH.
Qed.

Lemma add_block_sum d ls r :
  Forall2 (float_sum d) ls r ->
  forall blk, (length blk <= length r)%nat ->
  exists ls', Forall2 (float_sum d) ls' (add_block d r blk)
              /\ Permutation (concat ls') (concat ls ++ blk).
Proof.
  induction 1 as [|l x ls r Hx Hr IH]; intros blk Hlen.
  - destruct blk; [|cbn in Hlen; lia]. exists []. split; constructor.
  - destruct blk as [|y blk].
    + exists (l :: ls). split; [now constructor|]. now rewrite app_nil_r.
    + cbn in Hlen. destruct (IH blk) as (ls' & Hs & Hp); [lia|].
      exists ((l ++ [y]) :: ls'). split.
      * cbn. constructor; [|exact Hs]. apply float_sum_add; [exact Hx|constructor].
      * cbn [concat]. rewrite Hp, <- !app_assoc. apply Permutation_app_head.
        cbn. apply Permutation_middle.
Qed.

Lemma add_blocks_sum d k : forall ls r a r' rest,
  Forall2 (float_sum d) ls r -> length r = 8%nat ->
  add_blocks d k r a = (r', rest) ->
  exists ls', Forall2 (float_sum d) ls' r' /\ length r' = 8%nat
              /\ Permutation (concat ls' ++ rest) (concat ls ++ a).
Proof.
  induction k as [|k IH]; intros ls r a r' rest Hs Hlen Heq.
  - cbn in Heq. injection Heq as <- <-. exists ls. auto.
  - cbn [add_blocks] in Heq.
    destruct (add_block_sum d ls r Hs (firstn 8 a)) as (ls1 & Hs1 & Hp1).
    { rewrite Hlen. apply firstn_le_length. }
    destruct (IH ls1 _ _ _ _ Hs1 (eq_trans (add_block_length d r _) Hlen) Heq)
      as (ls' & Hs' & Hl' & Hp').
    exists ls'. split; [exact Hs'|]. split; [exact Hl'|].
    rewrite Hp', Hp1, <- app_assoc, firstn_skipn. reflexivity.
Qed.

Lemma tree8_sum d ls r :
  Forall2 (float_sum d) ls r -> length r = 8%nat ->
  float_sum d (concat ls) (tree8 d r).
Proof.
  intros H Hlen.
  do 8 (destruct H as [|? ? ? ? ? H]; [discriminate Hlen|]).
  destruct H; [|discriminate Hlen].
  cbn [tree8 concat]. rewrite app_nil_r.
  eapply float_sum_perm; [|repeat apply float_sum_add; eassumption].
  rewrite <- !app_assoc. reflexivity.
Qed.

Lemma singletons_sum d l : Forall2 (float_sum d) (map (fun x => [x]) l) l.
Proof. induction l; cbn; constructor; [constructor|assumption]. Qed.

Lemma concat_singletons {A} (l : list A) : concat (map (fun x => [x]) l) = l.
Proof. induction l; cbn; congruence. Qed.

Lemma pairwise_sum_eq fuel d a :
  pairwise_sum fuel d a
  = if (length a <? 8)%nat then add_seq d zero a
    else if (length a <=? PW_BLOCKSIZE)%nat then
      let '(r, rest) := add_blocks d (length a / 8 - 1) (firstn 8 a) (skipn 8 a) in
      add_seq d (tree8 d r) rest
    else
      match fuel with
      | O => zero
      | S fuel' =>
          let n2 := (length a / 2 - (length a / 2) mod 8)%nat in
          fadd d (pairwise_sum fuel' d (firstn n2 a))
                 (pairwise_sum fuel' d (skipn n2 a))
      end.
Proof. destruct fuel; reflexivity. Qed.

(** The pairwise sum adds every item of the row exactly once, and the
    length of the row is fuel enough. *)
Lemma pairwise_sum_ok d : forall fuel a,
  (length a <= fuel)%nat -> float_sum d a (pairwise_sum fuel d a).
Proof.
  induction fuel as [|fuel IH]; intros a Hlen; rewrite pairwise_sum_eq.
  - destruct a; [|cbn in Hlen; lia]. cbn. constructor.
  - destruct (length a <? 8)%nat eqn:H8.
    { apply (float_sum_seq d a [] zero). constructor. }
    apply Nat.ltb_ge in H8.
    destruct (length a <=? PW_BLOCKSIZE)%nat eqn:Hb.
    + destruct (add_blocks d (length a / 8 - 1) (firstn 8 a) (skipn 8 a))
        as [r rest] eqn:Hr.
      destruct (add_blocks_sum d _ _ _ _ _ _ (singletons_sum d (firstn 8 a))
                  (firstn_length_le a H8) Hr) as (ls' & Hs & Hl & Hp).
      rewrite concat_singletons, firstn_skipn in Hp.
      eapply float_sum_perm; [exact Hp|].
      apply float_sum_seq. now apply tree8_sum.
    + apply Nat.leb_gt in Hb. unfold PW_BLOCKSIZE in Hb.
      set (n2 := (length a / 2 - (length a / 2) mod 8)%nat).
      assert (Hn2 : (1 <= n2 < length a)%nat).
      { subst n2.
        pose proof (Nat.mod_upper_bound (length a / 2) 8 ltac:(discriminate)).
        pose proof (Nat.div_lt (length a) 2 ltac:(lia) ltac:(lia)).
        assert (64 <= length a / 2)%nat by (apply Nat.div_le_lower_bound; lia).
        lia. }
      rewrite <- (firstn_skipn n2 a) at 1.
      apply float_sum_add; apply IH.
      * rewrite length_firstn. lia.
      * rewrite length_skipn. lia.
Qed.

Lemma fsum_ok d row : float_sum d row (fsum d row).
Proof.
  unfold fsum. apply (float_sum_add d [] row).
  - constructor.
  - now apply pairwise_sum_ok.
Qed.

(** Below 8 items the sum runs from left to right. *)
Lemma fsum_short d row :
  (length row < 8)%nat ->
  fsum d row = fadd d zero (fold_left (fadd d) row zero).
Proof.
  intros H. unfold fsum. rewrite pairwise_sum_eq.
  apply Nat.ltb_lt in H. rewrite H. reflexivity.
Qed.

(** Adding to [0.0] changes nothing but the sign of a zero. *)
Lemma fadd_zero_l d x :
  fadd d zero x = match x with S754_zero _ => zero | _ => x end.
Proof. destruct x as [[]|[]| |]; reflexivity. Qed.

Lemma fsum_pair d l r : fsum d [l; r] = fadd d zero (fadd d l r).
Proof.
  rewrite fsum_short by (cbn; lia). cbn [fold_left].
  rewrite (fadd_zero_l d l).
  destruct l as [[]|[]| |]; try reflexivity;
    destruct r as [[]|[]| |]; reflexivity.
Qed.

(** C5.  A two-dimensional signal becomes one-dimensional with one
    sample per frame.  The sample at index [i] is a floating-point sum
    of the channel values of frame [i], each value added exactly once,
    divided by the number of channels.  With fewer than 8 channels the
    values are added from left to right, starting from 0.0; for two
    channels the sample is [(l + r) / 2] (a zero sum being [+0.0]),
    which is neither one of the channels nor their maximum: frames of
    0.5 and 0.25 give 0.375.  A one-dimensional signal is returned as
    it is. *)
Theorem to_mono_is_channel_mean :
  (forall d xs, to_mono (mk_ndarray d (Arr1 xs)) = mk_ndarray d (Arr1 xs))
  /\ (forall d rows,
        exists ys,
          to_mono (mk_ndarray d (Arr2 rows)) = mk_ndarray d (Arr1 ys)
          /\ length ys = length rows
          /\ forall i row,
               nth_error rows i = Some row ->
               exists s,
                 nth_error ys i
                 = Some (fdiv d s (of_Z d (Z.of_nat (length row))))
                 /\ float_sum d row s
                 /\ ((length row < 8)%nat ->
                     s = fadd d zero (fold_left (fadd d) row zero))
                 /\ (forall l r, row = [l; r] ->
                       s = fadd d zero (fadd d l r)
                       /\ (fadd d l r <> S754_zero true -> s = fadd d l r)))
  /\ (forall n,
        to_mono (mk_ndarray Float32 (Arr2 (repeat [f32 1 2; f32 1 4] n)))
        = mk_ndarray Float32 (Arr1 (repeat (f32 3 8) n)))
  /\ (f32 3 8 <> f32 1 2 /\ f32 3 8 <> f32 1 4).
Proof.
  split; [reflexivity|]. split.
  - intros d rows. exists (map (fmean d) rows).
    split; [reflexivity|]. split; [apply length_map|].
    intros i row Hrow. exists (fsum d row).
    split; [rewrite nth_error_map, Hrow; reflexivity|].
    split; [apply fsum_ok|]. split; [apply fsum_short|].
    intros l r ->. split; [apply fsum_pair|].
    rewrite fsum_pair, fadd_zero_l.
    destruct (fadd d l r) as [[]| | |]; intros Hnz; try reflexivity.
    now elim Hnz.
  - split.
    + intros n. rewrite to_mono_2d, map_repeat. reflexivity.
    + split; discriminate.
Qed.

(** Two stereo frames: (0.5, 0.25) and (1.0, -1.0). *)
Lemma to_mono_is_channel_mean_witness :
  nth_error [[f32 1 2; f32 1 4]; [f32 1 1; f32 (-1) 1]] 1
  = Some [f32 1 1; f32 (-1) 1]
  /\ exists ys,
       to_mono (mk_ndarray Float32 (Arr2 [[f32 1 2; f32 1 4]; [f32 1 1; f32 (-1) 1]]))
       = mk_ndarray Float32 (Arr1 ys)
       /\ nth_error ys 0 = Some (f32 3 8)
       /\ nth_error ys 1 = Some (S754_zero false).
Proof.
  split; [reflexivity|].
  destruct (proj1 (proj2 to_mono_is_channel_mean) Float32
              [[f32 1 2; f32 1 4]; [f32 1 1; f32 (-1) 1]]) as (ys & Heq & _ & Hnth).
  exists ys. split; [exact Heq|]. split.
  - destruct (Hnth 0%nat [f32 1 2; f32 1 4] eq_refl) as (s & Hs & _ & Hshort & _).
    rewrite Hs, (Hshort ltac:(cbn; lia)). reflexivity.
  - destruct (Hnth 1%nat [f32 1 1; f32 (-1) 1] eq_refl) as (s & Hs & _ & Hshort & _).
    rewrite Hs, (Hshort ltac:(cbn; lia)). reflexivity.
Defined.

(** ** Rate conversion *)

(** C6.  At 16000 Hz the buffer is returned untouched and the resampler
    is not called; at any other rate the resampler is called with
    [up = 16000 / g] and [down = sr / g] for [g = gcd(sr, 16000)], and
    these two factors are the fraction [16000 / sr] in lowest terms. *)
Theorem resample_to_target_reduced_fraction :
  forall (rp : ndarray -> Z -> Z -> result ndarray) (audio : ndarray) (sr : Z),
    let g := Z.gcd sr 16000 in
    let up := 16000 / g in
    let down := sr / g in
    resample_to_target rp audio sr TARGET_SR
    = (if sr =? 16000 then Ok audio else rp audio up down)
    /\ Z.gcd up down = 1
    /\ up * sr = down * 16000
    /\ 1 <= up.
Proof.
  intros rp audio sr g up down.
  assert (Hg : 0 < g).
  { assert (0 <= g) by apply Z.gcd_nonneg.
    assert (g <> 0).
    { unfold g. intros H0. apply Z.gcd_eq_0_r in H0. discriminate. }
    lia. }
  destruct (Z.gcd_divide_l sr 16000) as [a Ha].
  destruct (Z.gcd_divide_r sr 16000) as [b Hb].
  fold g in Ha, Hb.
  assert (Hup : up = b) by (unfold up; rewrite Hb at 1; apply Z.div_mul; lia).
  assert (Hdown : down = a).
  { unfold down. rewrite Ha at 1. apply Z.div_mul; lia. }
  repeat split.
  - unfold resample_to_target, TARGET_SR. fold g.
    destruct (sr =? 16000); [reflexivity|].
    replace (g =? 0) with false by (symmetry; apply Z.eqb_neq; lia).
    reflexivity.
  - unfold up, down. rewrite Z.gcd_comm.
    apply Z.gcd_div_gcd; [lia|reflexivity].
  - rewrite Hup, Hdown.
    replace (b * sr) with (b * (a * g)) by (now rewrite <- Ha).
    replace (a * 16000) with (a * (b * g)) by (now rewrite <- Hb).
    ring.
  - rewrite Hup. nia.
Qed.

(** ** Clamp and quantisation *)

(** *** Rounding never crosses a representable bound *)

Section RoundBound.

Variables prec emax : Z.
Hypothesis Hprec : 15 <= prec.
Hypothesis Hemax : prec <= emax.

Lemma fexp_small k : k <= 15 -> fexp prec emax k <= 0.
Proof. unfold fexp, emin. lia. Qed.

Lemma digits2_size p : digits2_pos p = Pos.size p.
Proof. induction p; simpl; congruence. Qed.

Lemma Zdigits2_bound m k : 0 <= k -> 0 <= m < 2 ^ k -> Zdigits2 m <= k.
Proof.
  intros Hk [H0 Hm]. destruct m as [|p|p]; simpl; try lia.
  rewrite digits2_size.
  pose proof (Pos.size_le p) as Hs.
  assert (Hz : 2 ^ Z.pos (Pos.size p) <= 2 * Z.pos p).
  { change (2 * Z.pos p) with (Z.pos p~0).
    rewrite <- (Pos2Z.inj_pow 2 (Pos.size p)). now apply Pos2Z.pos_le_pos. }
  assert (2 ^ Z.pos (Pos.size p) < 2 ^ (k + 1)).
  { rewrite Z.pow_add_r, Z.pow_1_r by lia. lia. }
  apply Z.pow_lt_mono_r_iff in H; lia.
Qed.

Lemma shr_1_half mrs : 0 <= shr_m mrs -> shr_m (shr_1 mrs) = shr_m mrs / 2.
Proof.
  destruct mrs as [m r s]. simpl. intros Hm.
  destruct m as [|p|p]; [reflexivity| |lia].
  destruct p as [p|p|]; simpl shr_m.
  - rewrite Pos2Z.inj_xI. apply Z.div_unique with 1; lia.
  - rewrite Pos2Z.inj_xO. apply Z.div_unique with 0; lia.
  - reflexivity.
Qed.

Lemma pow2_xO p : 2 ^ Z.pos p~0 = 2 ^ Z.pos p * 2 ^ Z.pos p.
Proof. rewrite <- Z.pow_add_r by lia. f_equal. lia. Qed.

Lemma pow2_xI p : 2 ^ Z.pos p~1 = 2 * (2 ^ Z.pos p * 2 ^ Z.pos p).
Proof.
  rewrite <- Z.pow_add_r, <- Z.pow_succ_r by lia. f_equal. lia.
Qed.

Lemma iter_shr_1 p : forall mrs,
  0 <= shr_m mrs ->
  shr_m (iter_pos shr_1 p mrs) = shr_m mrs / 2 ^ Z.pos p.
Proof.
  assert (Hpos : forall q, 0 < 2 ^ Z.pos q) by (intros; apply Z.pow_pos_nonneg; lia).
  induction p as [p IH|p IH|]; intros mrs Hm; simpl iter_pos.
  - assert (H1 : 0 <= shr_m (shr_1 mrs)) by (rewrite shr_1_half by lia; apply Z.div_pos; lia).
    assert (H2 : 0 <= shr_m (iter_pos shr_1 p (shr_1 mrs))).
    { rewrite IH by lia. apply Z.div_pos; [lia|apply Hpos]. }
    rewrite (IH _ H2), (IH _ H1), (shr_1_half _ Hm).
    pose proof (Hpos p).
    rewrite !Zdiv.Zdiv_Zdiv by nia.
    now rewrite pow2_xI, Z.mul_assoc.
  - assert (H2 : 0 <= shr_m (iter_pos shr_1 p mrs)).
    { rewrite IH by lia. apply Z.div_pos; [lia|apply Hpos]. }
    rewrite (IH _ H2), (IH _ Hm).
    pose proof (Hpos p).
    rewrite !Zdiv.Zdiv_Zdiv by nia.
    now rewrite pow2_xO.
  - rewrite shr_1_half by lia. reflexivity.
Qed.

Lemma shr_m_of_loc m l : shr_m (shr_record_of_loc m l) = m.
Proof. destruct l as [|[]]; reflexivity. Qed.

(** A mantissa under [B * 2^(-e)] stays under the bound when it is
    shifted to the exponent the format asks for. *)
Lemma shr_fexp_bound m e l B mrs e' :
  0 <= m -> e <= 0 -> 0 < B <= 2 ^ 15 -> m < B * 2 ^ (- e) ->
  shr_fexp prec emax m e l = (mrs, e') ->
  e' <= 0 /\ 0 <= shr_m mrs < B * 2 ^ (- e').
Proof.
  intros Hm He HB Hlt. unfold shr_fexp, shr.
  assert (Hd : Zdigits2 m + e <= 15).
  { assert (Zdigits2 m <= 15 - e); [|lia].
    apply Zdigits2_bound; [lia|]. split; [lia|].
    replace (15 - e) with (15 + - e) by lia. rewrite Z.pow_add_r by lia.
    assert (0 < 2 ^ (- e)) by (apply Z.pow_pos_nonneg; lia). nia. }
  pose proof (fexp_small _ Hd) as Hf.
  destruct (fexp prec emax (Zdigits2 m + e) - e) as [|p|p] eqn:Hn;
    intros Heq; inversion Heq; subst; clear Heq.
  - rewrite shr_m_of_loc. lia.
  - rewrite iter_shr_1 by (rewrite shr_m_of_loc; lia).
    rewrite shr_m_of_loc.
    assert (Hpow : 2 ^ (- e) = 2 ^ (- (e + Z.pos p)) * 2 ^ Z.pos p).
    { rewrite <- Z.pow_add_r by lia. f_equal. lia. }
    split; [lia|]. split.
    + apply Z.div_pos; [lia|]. apply Z.pow_pos_nonneg; lia.
    + apply Z.div_lt_upper_bound; [apply Z.pow_pos_nonneg; lia|].
      rewrite Hpow in Hlt. lia.
  - rewrite shr_m_of_loc. lia.
Qed.

Lemma round_nearest_even_le m l : m <= round_nearest_even m l <= m + 1.
Proof.
  destruct l as [|[]]; simpl; try lia.
  destruct (Z.even m); lia.
Qed.

(** The integer part of a rounded product lies within [B] whenever the
    exact product lies under [B]. *)
Lemma binary_round_aux_bound s M E B :
  0 <= M -> E <= 0 -> 0 < B < 2 ^ 15 -> M < B * 2 ^ (- E) ->
  exists z, trunc (binary_round_aux prec emax s M E loc_Exact) = Some z
            /\ - B <= z <= B.
Proof.
  intros HM HE HB Hlt. unfold binary_round_aux.
  destruct (shr_fexp prec emax M E loc_Exact) as [mrs1 e1] eqn:H1.
  destruct (shr_fexp_bound M E loc_Exact B mrs1 e1 HM HE ltac:(lia) Hlt H1) as (He1 & Hm1 & Hb1).
  pose proof (round_nearest_even_le (shr_m mrs1) (loc_of_shr_record mrs1)) as Hr.
  set (m1 := round_nearest_even (shr_m mrs1) (loc_of_shr_record mrs1)) in *.
  destruct (shr_fexp prec emax m1 e1 loc_Exact) as [mrs2 e2] eqn:H2.
  assert (Hp : 0 < 2 ^ (- e1)) by (apply Z.pow_pos_nonneg; lia).
  destruct (shr_fexp_bound m1 e1 loc_Exact (B+1) mrs2 e2 ltac:(lia) He1 ltac:(lia) ltac:(nia) H2)
    as (He2 & Hm2 & Hb2).
  destruct (shr_m mrs2) as [|m2|m2] eqn:Hs; [exists 0; split; [reflexivity|lia]| |lia].
  replace (e2 <=? emax - prec) with true by (symmetry; apply Z.leb_le; lia).
  assert (Hz : 0 <= (match e2 with Zneg p => Z.pos m2 / 2 ^ Z.pos p | _ => Z.pos m2 * 2 ^ e2 end) <= B).
  { destruct e2 as [|p|p]; [ change (2 ^ (- 0)) with 1 in Hb2; change (2 ^ 0) with 1; lia|lia|].
    change (- Z.neg p) with (Z.pos p) in Hb2.
    split; [apply Z.div_pos; [lia|apply Z.pow_pos_nonneg; lia]|].
    assert (Z.pos m2 / 2 ^ Z.pos p < B + 1); [|lia].
    apply Z.div_lt_upper_bound; [apply Z.pow_pos_nonneg; lia|lia]. }
  unfold trunc.
  eexists; split; [reflexivity|].
  destruct s; lia.
Qed.

End RoundBound.

(** *** Comparisons *)

Lemma SFcompare_antisym x y :
  SFcompare y x = option_map CompOpp (SFcompare x y).
Proof.
  destruct x as [sx|sx| |sx mx ex], y as [sy|sy| |sy my ey]; simpl;
    try reflexivity;
    try (destruct sx; reflexivity); try (destruct sy; reflexivity);
    try (destruct sx, sy; reflexivity).
  destruct sx, sy; simpl; try reflexivity;
    rewrite (Z.compare_antisym ex ey);
    destruct (ex ?= ey) eqn:He; simpl; try reflexivity;
    rewrite (Pos.compare_cont_antisym mx my Eq); simpl;
    rewrite ?CompOpp_involutive; reflexivity.
Qed.

Lemma flt_fgt x y : flt x y = fgt y x.
Proof. reflexivity. Qed.

Lemma flt_asym x y : flt x y = true -> flt y x = false.
Proof.
  unfold flt, SFltb. rewrite (SFcompare_antisym x y).
  destruct (SFcompare x y) as [[]|]; simpl; congruence.
Qed.

Lemma flt_not_nan x y : flt x y = true -> is_nan x = false /\ is_nan y = false.
Proof.
  unfold flt, SFltb. destruct x, y; simpl; try discriminate; auto.
Qed.

Lemma gt_one_gt_minus_one d x :
  fgt x (plus_one d) = true -> fgt x (minus_one d) = true.
Proof.
  destruct d; destruct x as [s|s| |s m e]; try destruct s; try discriminate;
    reflexivity.
Qed.

Lemma minus_one_lt_one d : flt (minus_one d) (plus_one d) = true.
Proof. destruct d; reflexivity. Qed.

(** *** The three ways out of [clip1] *)

Lemma clip1_above d x :
  fgt x (plus_one d) = true ->
  clip1 (minus_one d) (plus_one d) x = plus_one d.
Proof.
  intros H. unfold clip1, npy_max.
  rewrite (gt_one_gt_minus_one _ _ H), orb_true_r.
  unfold npy_min.
  destruct (flt_not_nan _ _ H) as [_ Hn]. rewrite Hn. simpl orb.
  now rewrite (flt_asym _ _ H).
Qed.

Lemma clip1_below d x :
  flt x (minus_one d) = true ->
  clip1 (minus_one d) (plus_one d) x = minus_one d.
Proof.
  intros H. unfold clip1, npy_max.
  destruct (flt_not_nan _ _ H) as [Hn _]. rewrite Hn. simpl orb.
  change (fgt x (minus_one d)) with (flt (minus_one d) x).
  rewrite (flt_asym _ _ H).
  unfold npy_min. rewrite minus_one_lt_one, orb_true_r. reflexivity.
Qed.

Lemma clip1_cases d x :
  is_nan x = false ->
  clip1 (minus_one d) (plus_one d) x = minus_one d
  \/ clip1 (minus_one d) (plus_one d) x = plus_one d
  \/ (clip1 (minus_one d) (plus_one d) x = x
      /\ fgt x (minus_one d) = true /\ flt x (plus_one d) = true).
Proof.
  intros Hn. unfold clip1, npy_max. rewrite Hn. simpl orb.
  destruct (fgt x (minus_one d)) eqn:Hlo.
  - unfold npy_min. rewrite Hn. simpl orb.
    destruct (flt x (plus_one d)) eqn:Hhi; auto.
  - left. unfold npy_min. now rewrite minus_one_lt_one, orb_true_r.
Qed.

(** *** Samples inside the unit interval *)

Lemma valid_mantissa_lt d s m e :
  valid_binary (prec d) (emax d) (S754_finite s m e) = true ->
  Z.pos m < 2 ^ prec d.
Proof.
  simpl. unfold bounded, canonical_mantissa, fexp.
  intros H. apply andb_true_iff in H. destruct H as [H _].
  apply Z.eqb_eq in H.
  assert (Hd : Z.pos (digits2_pos m) <= prec d) by lia.
  rewrite digits2_size in *.
  pose proof (Pos.size_gt m) as Hs.
  apply Pos2Z.pos_lt_pos in Hs. rewrite Pos2Z.inj_pow in Hs.
  eapply Z.lt_le_trans; [exact Hs|].
  apply Z.pow_le_mono_r; lia.
Qed.

Lemma plus_one_eq d : plus_one d = S754_finite false (unit_mantissa d) (1 - prec d).
Proof. destruct d; reflexivity. Qed.

Lemma minus_one_eq d : minus_one d = S754_finite true (unit_mantissa d) (1 - prec d).
Proof. destruct d; reflexivity. Qed.

Lemma unit_mantissa_eq d : Z.pos (unit_mantissa d) = 2 ^ (prec d - 1).
Proof. destruct d; reflexivity. Qed.

(** A valid finite float strictly between -1 and 1 has [m < 2^(-e)]. *)
Lemma inside_unit_mantissa d s m e :
  valid_binary (prec d) (emax d) (S754_finite s m e) = true ->
  fgt (S754_finite s m e) (minus_one d) = true ->
  flt (S754_finite s m e) (plus_one d) = true ->
  e <= 1 - prec d /\ Z.pos m < 2 ^ (- e).
Proof.
  intros Hv Hlo Hhi.
  pose proof (valid_mantissa_lt _ _ _ _ Hv) as Hm.
  assert (Hp : 24 <= prec d) by (destruct d; simpl; lia).
  assert (Hcmp : e < 1 - prec d \/ (e = 1 - prec d /\ Z.pos m < 2 ^ (prec d - 1))).
  { rewrite <- unit_mantissa_eq.
    unfold fgt, flt, SFltb in *. rewrite plus_one_eq in Hhi. rewrite minus_one_eq in Hlo.
    destruct s; cbn [SFcompare] in Hlo, Hhi.
    - clear Hhi. rewrite (Z.compare_antisym e (1 - prec d)) in Hlo.
      destruct (Z.compare_spec e (1 - prec d)) as [He|He|He]; cbn [CompOpp] in Hlo;
        [right|left; lia|discriminate].
      split; [exact He|].
      destruct (Pos.compare_cont Eq (unit_mantissa d) m) eqn:Hc; try discriminate.
      apply Pos2Z.pos_lt_pos. apply Pos.compare_gt_iff. exact Hc.
    - clear Hlo.
      destruct (Z.compare_spec e (1 - prec d)) as [He|He|He];
        [right|left; lia|discriminate].
      split; [exact He|].
      destruct (Pos.compare_cont Eq m (unit_mantissa d)) eqn:Hc; try discriminate.
      apply Pos2Z.pos_lt_pos. exact Hc. }
  split; [lia|].
  destruct Hcmp as [He|[He Hlt]].
  - eapply Z.lt_le_trans; [exact Hm|]. apply Z.pow_le_mono_r; lia.
  - replace (- e) with (prec d - 1) by lia. exact Hlt.
Qed.

Lemma c32767_eq d :
  of_Z d 32767 = S754_finite false (Z.to_pos (32767 * 2 ^ (prec d - 15))) (15 - prec d).
Proof. destruct d; reflexivity. Qed.

Lemma quantize1_inside d x :
  valid_binary (prec d) (emax d) x = true ->
  fgt x (minus_one d) = true -> flt x (plus_one d) = true ->
  exists z, trunc (fmul d x (of_Z d 32767)) = Some z /\ - 32767 <= z <= 32767.
Proof.
  intros Hv Hlo Hhi.
  destruct x as [s|s| |s m e].
  - exists 0. split; [destruct d; reflexivity|lia].
  - destruct d, s; discriminate.
  - discriminate.
  - destruct (inside_unit_mantissa _ _ _ _ Hv Hlo Hhi) as [He Hm].
    assert (Hp : 24 <= prec d <= emax d) by (destruct d; simpl; lia).
    unfold fmul. rewrite c32767_eq. cbn [SFmul].
    change (-32767) with (- 32767).
    apply (binary_round_aux_bound (prec d) (emax d)) with (B := 32767); try lia.
    rewrite Pos2Z.inj_mul, Z2Pos.id by (destruct d; simpl; lia).
    replace (- (e + (15 - prec d))) with (- e + (prec d - 15)) by lia.
    rewrite Z.pow_add_r by lia.
    assert (0 < 2 ^ (prec d - 15)) by (apply Z.pow_pos_nonneg; lia).
    nia.
Qed.

Lemma wrap16_id z : - 32768 <= z <= 32767 -> wrap16 z = z.
Proof.
  intros H. unfold wrap16. rewrite Z.mod_small by lia. lia.
Qed.

Lemma to_int16_in_range x z :
  trunc x = Some z -> - 32767 <= z <= 32767 -> to_int16 x = z.
Proof.
  intros Ht Hz. unfold to_int16. rewrite Ht.
  replace ((- 2 ^ 31 <=? z) && (z <? 2 ^ 31)) with true.
  - apply wrap16_id. lia.
  - symmetry. apply andb_true_iff. split; [apply Z.leb_le|apply Z.ltb_lt]; lia.
Qed.

Lemma quantize1_bounded d x :
  is_nan x = false ->
  valid_binary (prec d) (emax d) x = true ->
  exists z,
    trunc (fmul d (clip1 (minus_one d) (plus_one d) x) (of_Z d 32767)) = Some z
    /\ - 32767 <= z <= 32767
    /\ quantize1 d x = z.
Proof.
  intros Hn Hv. unfold quantize1.
  destruct (clip1_cases d x Hn) as [Hc|[Hc|(Hc & Hlo & Hhi)]]; rewrite Hc.
  - exists (- 32767). destruct d; repeat split; try reflexivity; lia.
  - exists 32767. destruct d; repeat split; try reflexivity; lia.
  - destruct (quantize1_inside d x Hv Hlo Hhi) as (z & Hz & Hb).
    exists z. repeat split; try assumption; try lia.
    now apply to_int16_in_range.
Qed.

Lemma SFcompare_refl x : is_nan x = false -> SFcompare x x = Some Eq.
Proof.
  destruct x as [s|s| |s m e]; simpl; try discriminate; intros _;
    try reflexivity; try (destruct s; reflexivity).
  rewrite Z.compare_refl.
  change (Pos.compare_cont Eq m m) with (Pos.compare m m).
  rewrite Pos.compare_refl. destruct s; reflexivity.
Qed.

Lemma fle_not_nan x y : fle x y = true -> is_nan x = false /\ is_nan y = false.
Proof.
  unfold fle, SFleb. destruct x, y; simpl; try discriminate; auto.
Qed.

Lemma flt_fle x y : flt x y = true -> fle x y = true.
Proof.
  unfold flt, fle, SFltb, SFleb.
  destruct (SFcompare x y) as [[]|]; congruence.
Qed.

(** [x <= y] without [x < y] leaves [x = y]. *)
Lemma fle_not_flt x y :
  fle x y = true -> flt x y = false -> SFcompare x y = Some Eq.
Proof.
  unfold flt, fle, SFltb, SFleb.
  destruct (SFcompare x y) as [[]|]; congruence.
Qed.

Lemma SFcompare_eq_sym x y : SFcompare x y = Some Eq -> SFcompare y x = Some Eq.
Proof. intros H. now rewrite (SFcompare_antisym x y), H. Qed.

Lemma nd_map_map {A B C} (f : A -> B) (g : B -> C) (a : nd A) :
  nd_map g (nd_map f a) = nd_map (fun x => g (f x)) a.
Proof.
  destruct a as [xs|rows]; simpl; f_equal.
  - apply map_map.
  - rewrite map_map. apply map_ext. intros r. apply map_map.
Qed.

Lemma quantize_pointwise a :
  quantize a = nd_map (quantize1 (dtype_of a)) (values a).
Proof.
  unfold quantize, astype_int16, mul_scalar, clip. simpl.
  now rewrite !nd_map_map.
Qed.

Lemma clip1_in_interval d x :
  is_nan x = false ->
  fle (minus_one d) (clip1 (minus_one d) (plus_one d) x) = true
  /\ fle (clip1 (minus_one d) (plus_one d) x) (plus_one d) = true.
Proof.
  intros Hn.
  destruct (clip1_cases d x Hn) as [Hc|[Hc|(Hc & Hlo & Hhi)]]; rewrite Hc.
  - destruct d; split; reflexivity.
  - destruct d; split; reflexivity.
  - split; apply flt_fle; assumption.
Qed.

Lemma clip1_keeps_inside d x :
  fle (minus_one d) x = true -> fle x (plus_one d) = true ->
  SFcompare (clip1 (minus_one d) (plus_one d) x) x = Some Eq.
Proof.
  intros Hlo Hhi.
  destruct (fle_not_nan _ _ Hhi) as [Hn _].
  unfold clip1, npy_max. rewrite Hn. simpl orb.
  destruct (fgt x (minus_one d)) eqn:Hg.
  - unfold npy_min. rewrite Hn. simpl orb.
    destruct (flt x (plus_one d)) eqn:Hl.
    + now apply SFcompare_refl.
    + apply SFcompare_eq_sym. now apply fle_not_flt.
  - unfold npy_min. rewrite minus_one_lt_one, orb_true_r.
    now apply fle_not_flt.
Qed.

(** C7.  [quantize] treats every sample alone: it clips it with the
    bounds -1.0 and 1.0, multiplies by 32767.0 and casts to [int16].
    The clipped value of a sample that is a number lies in the closed
    interval; a sample inside the interval keeps its value (it is not
    rescaled); a sample above 1.0 (infinity included) becomes 1.0 and
    then exactly 32767, one below -1.0 becomes -1.0 and then exactly
    -32767; and for every sample that is a number the integer part of
    the scaled value already lies between -32767 and 32767, so the
    cast neither wraps nor overflows. *)
Theorem quantize_clamps_then_scales :
  (forall a, quantize a = nd_map (quantize1 (dtype_of a)) (values a))
  /\ forall d x,
       let c := clip1 (minus_one d) (plus_one d) x in
       quantize1 d x = to_int16 (fmul d c (of_Z d 32767))
       /\ (is_nan x = false ->
           fle (minus_one d) c = true /\ fle c (plus_one d) = true)
       /\ (fle (minus_one d) x = true -> fle x (plus_one d) = true ->
           SFcompare c x = Some Eq)
       /\ (fgt x (plus_one d) = true ->
           c = plus_one d /\ quantize1 d x = 32767)
       /\ (flt x (minus_one d) = true ->
           c = minus_one d /\ quantize1 d x = -32767)
       /\ (is_nan x = false -> valid_binary (prec d) (emax d) x = true ->
           exists z,
             trunc (fmul d c (of_Z d 32767)) = Some z
             /\ -32767 <= z <= 32767
             /\ quantize1 d x = z).
Proof.
  split; [exact quantize_pointwise|].
  intros d x c. subst c.
  split; [reflexivity|].
  split; [apply clip1_in_interval|].
  split; [apply clip1_keeps_inside|].
  split; [|split].
  - intros H. pose proof (clip1_above d x H) as Hc. split; [exact Hc|].
    unfold quantize1. rewrite Hc. destruct d; reflexivity.
  - intros H. pose proof (clip1_below d x H) as Hc. split; [exact Hc|].
    unfold quantize1. rewrite Hc. destruct d; reflexivity.
  - apply quantize1_bounded.
Qed.

(** The toy recording: -2.0 and 1.984375 reach the ends of the scale,
    0.5 is scaled to 16383. *)
Lemma quantize_clamps_then_scales_witness :
  quantize1 Float32 (f32 2 1) = 32767
  /\ quantize1 Float32 (f32 (-2) 1) = -32767
  /\ (exists z, quantize1 Float32 (f32 1 2) = z /\ -32767 <= z <= 32767).
Proof.
  destruct quantize_clamps_then_scales as [_ H].
  split; [|split].
  - destruct (H Float32 (f32 2 1)) as (_ & _ & _ & Hup & _).
    apply Hup. reflexivity.
  - destruct (H Float32 (f32 (-2) 1)) as (_ & _ & _ & _ & Hdown & _).
    apply Hdown. reflexivity.
  - destruct (H Float32 (f32 1 2)) as (_ & _ & _ & _ & _ & Hin).
    destruct (Hin eq_refl eq_refl) as (z & _ & Hz & Hq).
    exists z. split; [exact Hq|exact Hz].
Defined.

(** ** The WAV writer *)

Lemma pack_uint4_ok v :
  0 <= v <= 4294967295 -> pack_uint 4 v = Ok (le_bytes 4 v).
Proof.
  intros H. unfold pack_uint.
  change (256 ^ Z.of_nat 4) with 4294967296.
  replace ((0 <=? v) && (v <? 4294967296)) with true; [reflexivity|].
  symmetry. apply andb_true_iff. split; [apply Z.leb_le|apply Z.ltb_lt]; lia.
Qed.

Lemma length_sample_bytes xs :
  length (flat_map sample_bytes xs) = (2 * length xs)%nat.
Proof. induction xs; simpl; lia. Qed.

Lemma write_mono_eq xs :
  let n := 2 * Z.of_nat (length xs) in
  write 16000 (Arr1 xs)
  = if 36 + n >? 4294967295
    then Raise (u "Data exceeds wave file size limit")
    else Ok (list_byte_of_string "RIFF" ++ le_bytes 4 (36 + n)
             ++ wav_header_mid ++ le_bytes 4 n ++ flat_map sample_bytes xs)%list.
Proof.
  intros n. unfold write.
  change (size (Arr1 xs)) with (Z.of_nat (length xs)). fold n.
  change (pack_uint 2 WAVE_FORMAT_PCM) with (Ok (le_bytes 2 1)).
  cbn [bind_result].
  change (pack_uint 2 1) with (Ok (le_bytes 2 1)). cbn [bind_result].
  change (pack_uint 4 16000) with (Ok (le_bytes 4 16000)). cbn [bind_result].
  change (pack_uint 4 (16000 * (2 * 8 / 8) * 1)) with (Ok (le_bytes 4 32000)). cbn [bind_result].
  change (pack_uint 2 (1 * (2 * 8 / 8))) with (Ok (le_bytes 2 2)). cbn [bind_result].
  change (pack_uint 2 (2 * 8)) with (Ok (le_bytes 2 16)). cbn [bind_result].
  match goal with |- context [pack_uint 4 (blen ?l)] =>
    change (pack_uint 4 (blen l)) with (Ok (le_bytes 4 16)) end.
  cbn [bind_result].
  match goal with |- context [blen ?l - 4 - 4 + (4 + 4 + n)] =>
    replace (blen l - 4 - 4 + (4 + 4 + n)) with (36 + n) by (change (blen l) with 36; lia) end.
  destruct (36 + n >? 4294967295) eqn:Hg; [reflexivity|].
  assert (Hn : 0 <= n) by (unfold n; lia).
  assert (Hlt : 36 + n <= 4294967295) by (rewrite Z.gtb_ltb in Hg; apply Z.ltb_ge in Hg; lia).
  rewrite (pack_uint4_ok n) by lia.
  cbn [bind_result].
  match goal with |- context [pack_uint 4 (blen ?l - 8)] =>
    replace (blen l - 8) with (36 + n) end.
  - rewrite (pack_uint4_ok (36 + n)) by lia.
    cbn [bind_result]. reflexivity.
  - unfold blen. rewrite !length_app, length_sample_bytes. simpl length.
    unfold n. lia.
Qed.

Lemma Z_of_byte_of_Z z : Z_of_byte (byte_of_Z z) = z mod 256.
Proof.
  unfold Z_of_byte, byte_of_Z.
  assert (Hr : 0 <= z mod 256 < 256) by (apply Z.mod_pos_bound; lia).
  destruct (Byte.of_N (Z.to_N (z mod 256))) as [b|] eqn:Hb.
  - apply Byte.to_of_N in Hb. rewrite Hb. apply Z2N.id. lia.
  - apply Byte.of_N_None_iff in Hb. lia.
Qed.

Lemma le_value_le_bytes n z : le_value (le_bytes n z) = z mod 256 ^ Z.of_nat n.
Proof.
  revert z. induction n as [|n IH]; intros z.
  - simpl. now rewrite Z.mod_1_r.
  - cbn [le_bytes le_value]. rewrite Z_of_byte_of_Z, IH.
    rewrite Nat2Z.inj_succ, Z.pow_succ_r by lia.
    assert (Hp : 0 < 256 ^ Z.of_nat n) by (apply Z.pow_pos_nonneg; lia).
    rewrite (Z.rem_mul_r z 256 (256 ^ Z.of_nat n)) by lia. lia.
Qed.

Lemma parse_mono_layout sz dl payload :
  length sz = 4%nat -> length dl = 4%nat ->
  le_value sz = 36 + blen payload -> le_value dl = blen payload ->
  parse (list_byte_of_string "RIFF" ++ sz ++ wav_header_mid ++ dl ++ payload)%list
  = Some (mk_wav_info 1 1 16000 32000 2 16 payload).
Proof.
  intros Hsz Hdl Hvs Hvd.
  destruct sz as [|s0 [|s1 [|s2 [|s3 [|? ?]]]]]; try discriminate Hsz.
  destruct dl as [|d0 [|d1 [|d2 [|d3 [|? ?]]]]]; try discriminate Hdl.
  unfold wav_header_mid.
  change (list_byte_of_string "RIFF") with [x52; x49; x46; x46].
  cbn [app].
  match goal with |- parse ?b = _ =>
    assert (Hlen : blen b = 44 + blen payload)
      by (unfold blen; cbn [length]; lia)
  end.
  unfold parse. rewrite Hlen.
  unfold field, slice. cbn [firstn skipn].
  rewrite Hvs, Hvd.
  replace (36 + blen payload =? 44 + blen payload - 8) with true by (symmetry; apply Z.eqb_eq; lia).
  replace (blen payload =? 44 + blen payload - 44) with true by (symmetry; apply Z.eqb_eq; lia).
  reflexivity.
Qed.

(** ** One call of [save_audio_to_mongo] *)

Lemma save_audio_body_split E b spell user w :
  save_audio_body E b spell user w
  = match normalize E b with
    | Raise e => (Raise e, w)
    | Ok None => (Ok None, w)
    | Ok (Some wav) => store_wav E wav spell user w
    end.
Proof.
  unfold save_audio_body, normalize, bind, lift, bind_result.
  destruct (sf_read E b Float32 false) as [[[v|] sr]|e]; try reflexivity.
  destruct (size v =? 0); [reflexivity|].
  destruct (resample_to_target (resample_poly E) (to_mono (mk_ndarray Float32 v)) sr TARGET_SR)
    as [a|e]; [|reflexivity].
  destruct (write TARGET_SR (quantize a)) as [wav|e]; reflexivity.
Qed.

Lemma hex_fixed_length n z : length (hex_fixed n z) = n.
Proof.
  revert z. induction n as [|n IH]; intros z; simpl; [reflexivity|].
  rewrite length_app, IH. simpl. lia.
Qed.

Lemma str_of_oid_truthy id : truthy (str_of_oid id) = true.
Proof.
  unfold str_of_oid.
  pose proof (hex_fixed_length 24 (oid_value id)) as H.
  destruct (hex_fixed 24 (oid_value id)); [discriminate H|reflexivity].
Qed.

Lemma truthy_nonempty s : truthy s = true <-> s <> [].
Proof. destruct s; simpl; split; congruence. Qed.

Lemma put_wav_cases E fs wav spell user w :
  (exists ts e w', put_wav E fs wav spell user w = (Raise e, w')
     /\ gridfs_put E fs (bucket w) (put_request wav spell user ts) = Raise e
     /\ put_calls w' = put_calls w ++ [put_request wav spell user ts]
     /\ bucket w' = bucket w)
  \/ (exists ts id w', put_wav E fs wav spell user w = (Ok (Some (str_of_oid id)), w')
     /\ gridfs_put E fs (bucket w) (put_request wav spell user ts) = Ok id
     /\ put_calls w' = put_calls w ++ [put_request wav spell user ts]
     /\ bucket w' = bucket w ++ [(id, put_request wav spell user ts)]).
Proof.
  unfold put_wav, bind, now_ms, fs_put, ret. cbv beta iota.
  cbn [bucket put_calls].
  destruct (gridfs_put E fs (bucket w) (put_request wav spell user (time_ms E (clock_reads w))))
    as [id|e] eqn:Hp.
  - right. exists (time_ms E (clock_reads w)), id. eexists.
    split; [reflexivity|]. cbn [bucket put_calls]. auto.
  - left. exists (time_ms E (clock_reads w)), e. eexists.
    split; [reflexivity|]. cbn [bucket put_calls]. auto.
Qed.

(** The store half: no call at all, a refused call, or a stored file. *)
Lemma store_wav_cases E wav spell user w :
  (store_wav E wav spell user w = (Ok None, w) /\ MONGO_URI E = [])
  \/ (exists e w', store_wav E wav spell user w = (Raise e, w')
      /\ MONGO_URI E <> [] /\ g_mongo_fs w = None
      /\ mongo_connect E (MONGO_URI E) = Raise e
      /\ put_calls w' = put_calls w /\ bucket w' = bucket w
      /\ g_mongo_fs w' = None)
  \/ (exists fs ts e w', store_wav E wav spell user w = (Raise e, w')
      /\ MONGO_URI E <> []
      /\ (g_mongo_fs w = Some fs
          \/ (g_mongo_fs w = None /\ mongo_connect E (MONGO_URI E) = Ok (fs_client fs)))
      /\ gridfs_put E fs (bucket w) (put_request wav spell user ts) = Raise e
      /\ put_calls w' = put_calls w ++ [put_request wav spell user ts]
      /\ bucket w' = bucket w)
  \/ (exists fs ts id w', store_wav E wav spell user w = (Ok (Some (str_of_oid id)), w')
      /\ MONGO_URI E <> []
      /\ (g_mongo_fs w = Some fs
          \/ (g_mongo_fs w = None /\ mongo_connect E (MONGO_URI E) = Ok (fs_client fs)))
      /\ gridfs_put E fs (bucket w) (put_request wav spell user ts) = Ok id
      /\ put_calls w' = put_calls w ++ [put_request wav spell user ts]
      /\ bucket w' = bucket w ++ [(id, put_request wav spell user ts)]).
Proof.
  unfold store_wav, get_gridfs.
  destruct (MONGO_URI E) as [|c uri] eqn:Huri.
  - left. split; reflexivity.
  - right. assert (Hne : c :: uri <> []) by discriminate.
    cbn [truthy negb]. unfold bind, lift.
    destruct (g_mongo_fs w) as [fs|] eqn:Hfs.
    + destruct (put_wav_cases E fs wav spell user w)
        as [(ts & e & w' & H1 & H2 & H3 & H4)|(ts & id & w' & H1 & H2 & H3 & H4)].
      * right; left. exists fs, ts, e, w'. auto 10.
      * right; right. exists fs, ts, id, w'. auto 10.
    + destruct (mongo_connect E (c :: uri)) as [cl|e] eqn:Hconn.
      * cbn [set_mongo_client set_mongo_fs ret].
        match goal with |- context [put_wav E ?fs wav spell user ?w1] =>
          destruct (put_wav_cases E fs wav spell user w1)
            as [(ts & e & w' & H1 & H2 & H3 & H4)|(ts & id & w' & H1 & H2 & H3 & H4)];
          cbn [bucket put_calls] in H2, H3, H4
        end.
        -- right; left.
           exists (mk_gridfs cl (MONGO_DB E) (MONGO_BUCKET E)), ts, e, w'.
           split; [exact H1|]. split; [exact Hne|].
           split; [right; split; reflexivity|]. auto.
        -- right; right.
           exists (mk_gridfs cl (MONGO_DB E) (MONGO_BUCKET E)), ts, id, w'.
           split; [exact H1|]. split; [exact Hne|].
           split; [right; split; reflexivity|]. auto.
      * left. exists e, w. auto 10.
Qed.

(** A call never raises, and ends in one of the ways of [save_outcome]. *)
Lemma save_audio_to_mongo_outcome E b spell user w :
  exists o w',
    save_audio_to_mongo E b spell user w = (Ok o, w')
    /\ save_outcome E b spell user w o w'.
Proof.
  unfold save_audio_to_mongo, try_except.
  rewrite save_audio_body_split.
  destruct (normalize E b) as [[wav|]|e] eqn:Hn.
  - destruct (store_wav_cases E wav spell user w)
      as [(H1 & H2)
         |[(e & w' & H1 & H2 & H3 & H4 & H5 & H6 & H7)
         |[(fs & ts & e & w' & H1 & H2 & Hh & H3 & H4 & H5)
         |(fs & ts & id & w' & H1 & H2 & Hh & H3 & H4 & H5)]]]; rewrite H1.
    + exists None, w. split; [reflexivity|].
      eapply SaveNoUri; eauto.
    + eexists None, _. split; [reflexivity|].
      eapply SaveConnectRaised; eauto.
    + eexists None, _. split; [reflexivity|].
      eapply SavePutRaised; eauto.
    + exists (Some (str_of_oid id)), w'. split; [reflexivity|].
      eapply SaveStored; eauto.
  - exists None, w. split; [reflexivity|].
    apply SaveNotNormalized; auto. intros wav; rewrite Hn; discriminate.
  - eexists None, _. split; [reflexivity|].
    apply SaveNotNormalized; auto. intros wav; rewrite Hn; discriminate.
Qed.

(** ** From decoded samples to a canonical file *)

Lemma wrap16_range z : int16_range (wrap16 z).
Proof.
  unfold int16_range, wrap16.
  pose proof (Z.mod_pos_bound (z + 32768) 65536). lia.
Qed.

Lemma to_int16_range x : int16_range (to_int16 x).
Proof.
  unfold to_int16. destruct (trunc x) as [z|]; [|unfold int16_range; lia].
  destruct ((- 2 ^ 31 <=? z) && (z <? 2 ^ 31)); [apply wrap16_range|unfold int16_range; lia].
Qed.

Lemma sample_roundtrip z :
  int16_range z -> wrap16 (le_value (sample_bytes z)) = z.
Proof.
  intros H. unfold sample_bytes. rewrite le_value_le_bytes.
  change (256 ^ Z.of_nat 2) with 65536.
  rewrite <- (wrap16_id z) at 2 by exact H.
  unfold wrap16. now rewrite Z.add_mod_idemp_l by lia.
Qed.

Lemma samples16_roundtrip xs :
  Forall int16_range xs -> samples16 (flat_map sample_bytes xs) = xs.
Proof.
  induction 1 as [|z xs Hz _ IH]; [reflexivity|].
  cbn [flat_map]. unfold sample_bytes at 1. cbn [le_bytes app samples16].
  rewrite IH. f_equal. apply (sample_roundtrip z Hz).
Qed.

Lemma Ok_inj {A} (a b : A) : Ok a = Ok b -> a = b.
Proof. congruence. Qed.

Lemma blen_sample_bytes xs :
  blen (flat_map sample_bytes xs) = 2 * Z.of_nat (length xs).
Proof. unfold blen. rewrite length_sample_bytes. lia. Qed.

(** What [Wav.write] makes of a one-dimensional [int16] array at the
    target rate reads back as mono 16-bit PCM with the same samples. *)
Lemma write_mono_valid xs wav :
  Forall int16_range xs ->
  write TARGET_SR (Arr1 xs) = Ok wav ->
  parse wav = Some (mk_wav_info 1 1 16000 32000 2 16 (flat_map sample_bytes xs))
  /\ samples16 (flat_map sample_bytes xs) = xs
  /\ is_mono_pcm16_wav 16000 wav = true.
Proof.
  intros Hr Hw. unfold TARGET_SR in Hw. rewrite write_mono_eq in Hw. cbv zeta in Hw.
  destruct (36 + 2 * Z.of_nat (length xs) >? 4294967295) eqn:Hg; [discriminate|].
  rewrite Z.gtb_ltb in Hg. apply Z.ltb_ge in Hg.
  apply Ok_inj in Hw. subst wav.
  assert (Hp : parse (list_byte_of_string "RIFF" ++ le_bytes 4 (36 + 2 * Z.of_nat (length xs))
                      ++ wav_header_mid ++ le_bytes 4 (2 * Z.of_nat (length xs))
                      ++ flat_map sample_bytes xs)%list
               = Some (mk_wav_info 1 1 16000 32000 2 16 (flat_map sample_bytes xs))).
  { apply parse_mono_layout; try reflexivity.
    - rewrite le_value_le_bytes, blen_sample_bytes.
      change (256 ^ Z.of_nat 4) with 4294967296. apply Z.mod_small. lia.
    - rewrite le_value_le_bytes, blen_sample_bytes.
      change (256 ^ Z.of_nat 4) with 4294967296. apply Z.mod_small. lia. }
  split; [exact Hp|]. split; [now apply samples16_roundtrip|].
  unfold is_mono_pcm16_wav. rewrite Hp.
  unfold pcm_consistent. cbn [wf_format_tag wf_channels wf_block_align wf_bits wf_byte_rate wf_rate wf_payload].
  rewrite blen_sample_bytes.
  replace (2 * Z.of_nat (length xs) mod 2) with 0
    by (symmetry; rewrite Z.mul_comm; apply Z.mod_mul; lia).
  reflexivity.
Qed.

Lemma to_mono_ndim a : ndim (values (to_mono a)) = 1.
Proof. unfold to_mono. destruct a as [d [xs|rows]]; reflexivity. Qed.

Lemma quantize_1d a :
  ndim (values a) = 1 ->
  exists xs, quantize a = Arr1 xs /\ Forall int16_range xs
             /\ xs = map (quantize1 (dtype_of a)) (ravel (values a)).
Proof.
  intros H. rewrite quantize_pointwise.
  destruct a as [d [ys|rows]]; [|discriminate H].
  exists (map (quantize1 d) ys). repeat split.
  apply Forall_forall. intros z Hz. apply in_map_iff in Hz.
  destruct Hz as (y & <- & _). apply to_int16_range.
Qed.

Lemma resample_to_target_ndim rp a sr a' :
  keeps_ndim rp ->
  resample_to_target rp a sr TARGET_SR = Ok a' ->
  ndim (values a') = ndim (values a).
Proof.
  intros Hk. unfold resample_to_target.
  destruct (sr =? TARGET_SR); [intros [= <-]; reflexivity|].
  destruct (Z.gcd sr TARGET_SR =? 0); [discriminate|].
  apply Hk.
Qed.

Lemma normalize_valid E b wav :
  keeps_ndim (resample_poly E) ->
  normalize E b = Ok (Some wav) ->
  exists v sr a xs,
    sf_read E b Float32 false = Ok (Some v, sr) /\ size v <> 0
    /\ resample_to_target (resample_poly E) (to_mono (mk_ndarray Float32 v)) sr TARGET_SR = Ok a
    /\ values a = Arr1 (ravel (values a))
    /\ xs = map (quantize1 (dtype_of a)) (ravel (values a))
    /\ parse wav = Some (mk_wav_info 1 1 16000 32000 2 16 (flat_map sample_bytes xs))
    /\ samples16 (flat_map sample_bytes xs) = xs
    /\ is_mono_pcm16_wav 16000 wav = true.
Proof.
  intros Hk. unfold normalize, bind_result.
  destruct (sf_read E b Float32 false) as [[[v|] sr]|e]; try discriminate.
  destruct (size v =? 0) eqn:Hs; [discriminate|]. apply Z.eqb_neq in Hs.
  destruct (resample_to_target (resample_poly E) (to_mono (mk_ndarray Float32 v)) sr TARGET_SR)
    as [a|e] eqn:Hr; [|discriminate].
  destruct (write TARGET_SR (quantize a)) as [wav'|e] eqn:Hw; [|discriminate].
  intros [= <-].
  pose proof (resample_to_target_ndim _ _ _ _ Hk Hr) as Hn.
  rewrite to_mono_ndim in Hn.
  destruct (quantize_1d a Hn) as (xs & Hq & Hrange & Hxs).
  rewrite Hq in Hw.
  destruct (write_mono_valid xs wav' Hrange Hw) as (Hp & Hrt & Hv).
  exists v, sr, a, xs. repeat split; auto.
  destruct a as [d [ys|rows]]; [reflexivity|discriminate Hn].
Qed.

Lemma demo_resample_keeps_ndim : keeps_ndim (resample_poly Demo.env).
Proof.
  intros a up down a'. cbn [resample_poly Demo.env]. unfold Demo.resample.
  destruct ((up <? 1) || (down <? 1)); [discriminate|].
  intros H. apply Ok_inj in H. subst a'. cbn [values].
  destruct (values a); reflexivity.
Qed.

(** C1.  Provided the resampler returns arrays of the dimension it is
    given: whenever decoding, channel reduction, resampling,
    quantisation and encoding succeed on a non-empty buffer, whatever
    its channel layout and sample rate, the encoded bytes are a valid
    44-byte-header WAV file of format tag 1 (PCM), 1 channel, 16000 Hz,
    16 bits, whose samples are the quantised samples; and every
    [fs.put] call that [save_audio_to_mongo] makes passes exactly such
    bytes, with [sample_rate] 16000 in its metadata. *)
Theorem stored_bytes_are_mono_16k_pcm16_wav :
  forall E, keeps_ndim (resample_poly E) ->
    (forall b wav,
       normalize E b = Ok (Some wav) ->
       exists v sr a xs,
         sf_read E b Float32 false = Ok (Some v, sr) /\ size v <> 0
         /\ resample_to_target (resample_poly E)
              (to_mono (mk_ndarray Float32 v)) sr TARGET_SR = Ok a
         /\ values a = Arr1 (ravel (values a))
         /\ xs = map (quantize1 (dtype_of a)) (ravel (values a))
         /\ parse wav
            = Some (mk_wav_info 1 1 16000 32000 2 16 (flat_map sample_bytes xs))
         /\ samples16 (flat_map sample_bytes xs) = xs
         /\ is_mono_pcm16_wav 16000 wav = true)
    /\ (forall b spell user w req,
          In req (put_calls (snd (save_audio_to_mongo E b spell user w))) ->
          In req (put_calls w)
          \/ (normalize E b = Ok (Some (put_data req))
              /\ is_mono_pcm16_wav 16000 (put_data req) = true
              /\ md_sample_rate (put_metadata req) = 16000
              /\ md_format (put_metadata req) = u "wav")).
Proof.
  intros E Hk. split; [intros b wav; now apply normalize_valid|].
  intros b spell user w req Hin.
  destruct (save_audio_to_mongo_outcome E b spell user w) as (o & w' & Heq & Hout).
  rewrite Heq in Hin. cbn [snd] in Hin.
  assert (Hnew : forall wav ts,
            normalize E b = Ok (Some wav) ->
            In req (put_calls w ++ [put_request wav spell user ts]) ->
            In req (put_calls w)
            \/ (normalize E b = Ok (Some (put_data req))
                /\ is_mono_pcm16_wav 16000 (put_data req) = true
                /\ md_sample_rate (put_metadata req) = 16000
                /\ md_format (put_metadata req) = u "wav")).
  { intros wav ts Hn Hi. apply in_app_or in Hi. destruct Hi as [Hi|[<-|[]]]; [now left|].
    right. cbn [put_request put_data put_metadata md_sample_rate md_format].
    destruct (normalize_valid E b wav Hk Hn) as (? & ? & ? & ? & ? & ? & ? & ? & ? & ? & ? & Hv).
    repeat split; [exact Hn|exact Hv]. }
  inversion Hout; subst.
  - left. congruence.
  - now left.
  - left. congruence.
  - match goal with H : put_calls w' = _ |- _ => rewrite H in Hin end. eauto.
  - match goal with H : put_calls w' = _ |- _ => rewrite H in Hin end. eauto.
Qed.

(** The toy stereo recording at 8000 Hz reaches the store as mono
    16000 Hz PCM16. *)
Lemma stored_bytes_are_mono_16k_pcm16_wav_witness :
  keeps_ndim (resample_poly Demo.env)
  /\ length (put_calls (snd (save_audio_to_mongo Demo.env Demo.rec_stereo
                               (u "Nox") (u "ron") Demo.w0))) = 1%nat
  /\ Forall (fun req => is_mono_pcm16_wav 16000 (put_data req) = true)
            (put_calls (snd (save_audio_to_mongo Demo.env Demo.rec_stereo
                               (u "Nox") (u "ron") Demo.w0))).
Proof.
  split; [exact demo_resample_keeps_ndim|]. split; [reflexivity|].
  apply Forall_forall. intros req Hin.
  destruct (proj2 (stored_bytes_are_mono_16k_pcm16_wav Demo.env demo_resample_keeps_ndim)
              _ _ _ _ _ Hin) as [[]|(_ & Hv & _)].
  exact Hv.
Defined.

(** ** The submission loop *)

Lemma str_eqb_eq a b : str_eqb a b = true <-> a = b.
Proof.
  revert b. induction a as [|x a IH]; intros [|y b]; simpl; split; try congruence.
  - intros H. apply andb_true_iff in H. destruct H as [Hx Hr].
    apply N.eqb_eq in Hx. apply IH in Hr. congruence.
  - intros [= -> ->]. rewrite N.eqb_refl. now apply IH.
Qed.

Lemma bind_ok {A B} (m : M A) (k : A -> M B) w a w' :
  m w = (Ok a, w') -> bind m k w = k a w'.
Proof. intros H. unfold bind. now rewrite H. Qed.

Lemma same_store_refl w : same_store w w.
Proof. repeat split. Qed.

Lemma same_store_trans w1 w2 w3 :
  same_store w1 w2 -> same_store w2 w3 -> same_store w1 w3.
Proof. unfold same_store. intuition congruence. Qed.

Lemma st_emit_same ev w :
  exists w', st_emit ev w = (Ok tt, w') /\ same_store w w'
             /\ st_out w' = st_out w ++ [ev].
Proof. eexists. split; [reflexivity|]. repeat split. Qed.

Lemma for_each_emit_same {A} (f : A -> StEvent) l w :
  exists w', for_each (fun x => st_emit (f x)) l w = (Ok tt, w')
             /\ same_store w w' /\ st_out w' = st_out w ++ map f l.
Proof.
  revert w. induction l as [|x l IH]; intros w.
  - exists w. cbn. rewrite app_nil_r. repeat split.
  - cbn [for_each].
    destruct (st_emit_same (f x) w) as (w1 & He1 & Hs1 & Ho1).
    destruct (IH w1) as (w2 & He2 & Hs2 & Ho2).
    exists w2. split; [rewrite (bind_ok _ _ _ _ _ He1); exact He2|]. split; [eapply same_store_trans; eauto|].
    rewrite Ho2, Ho1, <- app_assoc. reflexivity.
Qed.

Lemma save_outcome_some_truthy E b spell user w id w' :
  save_outcome E b spell user w (Some id) w' -> truthy id = true.
Proof. inversion 1; subst. apply str_of_oid_truthy. Qed.

(** The loop never raises and its result is a [loop_run]. *)
Lemma process_spells_run E files user spells :
  forall saved skipped w,
  exists s k w',
    process_spells E spells files user saved skipped w
    = (Ok (saved ++ s, skipped ++ k), w')
    /\ loop_run E files user spells w s k w'.
Proof.
  induction spells as [|spell rest IH]; intros saved skipped w.
  - exists [], [], w. cbn. rewrite !app_nil_r. split; [reflexivity|constructor].
  - cbn [process_spells].
    destruct (dict_get files spell) as [b|] eqn:Hget.
    + destruct (save_audio_to_mongo_outcome E b spell user w) as (o & w1 & Hs & Hout).
      rewrite (bind_ok _ _ _ _ _ Hs).
      destruct o as [id|].
      * rewrite (save_outcome_some_truthy _ _ _ _ _ _ _ Hout).
        destruct (IH (saved ++ [(spell, id)]) skipped w1) as (s & k & w' & -> & Hrun).
        exists ((spell, id) :: s), k, w'. rewrite <- app_assoc. split; [reflexivity|].
        eapply LoopSaved; eauto.
      * destruct (IH saved (skipped ++ [spell]) w1) as (s & k & w' & -> & Hrun).
        exists s, (spell :: k), w'. rewrite <- app_assoc. split; [reflexivity|].
        eapply LoopFailed; eauto.
    + destruct (IH saved (skipped ++ [spell]) w) as (s & k & w' & -> & Hrun).
      exists s, (spell :: k), w'. rewrite <- app_assoc. split; [reflexivity|].
      eapply LoopAbsent; eauto.
Qed.

Lemma main_submit_accepted E username files w :
  strip username <> [] -> dict_len files <> 0 ->
  exists saved skipped w1 w',
    main_submit E username files w = (Ok (Report saved skipped), w')
    /\ loop_run E files (sanitize_username (Some username)) SPELLS w saved skipped w1
    /\ same_store w1 w'
    /\ st_out w' = st_out w1 ++ report_events saved skipped.
Proof.
  intros Hname Hcount. unfold main_submit.
  destruct (strip username) as [|c r] eqn:Hs; [congruence|]. cbn [truthy negb].
  replace (dict_len files =? 0) with false by (symmetry; now apply Z.eqb_neq).
  destruct (process_spells_run E files (sanitize_username (Some username)) SPELLS [] [] w)
    as (s & k & w1 & Hp & Hrun).
  rewrite (bind_ok _ _ _ _ _ Hp). cbn [app]. cbv beta iota.
  exists s, k, w1.
  assert (H1 : exists w2,
    (if negb (Nat.eqb (length s) 0)
     then (st_emit (StSuccess (9989%N :: u " Saved recordings:"));;;
           for_each (fun item => st_emit (StWrite (u "- " ++ saved_line item))) s)%M
     else ret tt) w1 = (Ok tt, w2)
    /\ same_store w1 w2
    /\ st_out w2 = st_out w1 ++ match s with
                                | [] => []
                                | _ => StSuccess (9989%N :: u " Saved recordings:")
                                       :: map (fun item => StWrite (u "- " ++ saved_line item)) s
                                end).
  { destruct s as [|e s'].
    - exists w1. cbn. rewrite app_nil_r. repeat split.
    - cbn [length Nat.eqb negb].
      destruct (st_emit_same (StSuccess (9989%N :: u " Saved recordings:")) w1) as (wa & Hea & Hsa & Hoa).
      destruct (for_each_emit_same (fun item => StWrite (u "- " ++ saved_line item)) (e :: s') wa)
        as (wb & Heb & Hsb & Hob).
      exists wb. split; [rewrite (bind_ok _ _ _ _ _ Hea); exact Heb|]. split; [eapply same_store_trans; eauto|].
      rewrite Hob, Hoa, <- app_assoc. reflexivity. }
  destruct H1 as (w2 & He1 & Hs1 & Ho1).
  assert (H2 : exists w3,
    (if negb (Nat.eqb (length k) 0)
     then for_each (fun spell => st_emit (StExpanderWrite ([8505; 65039]%N ++ u " Missing (not provided)") (u "- " ++ spell))) k
     else ret tt) w2 = (Ok tt, w3)
    /\ same_store w2 w3
    /\ st_out w3 = st_out w2 ++ map (fun spell => StExpanderWrite ([8505; 65039]%N ++ u " Missing (not provided)") (u "- " ++ spell)) k).
  { destruct k as [|e k'].
    - exists w2. cbn. rewrite app_nil_r. repeat split.
    - cbn [length Nat.eqb negb]. apply for_each_emit_same. }
  destruct H2 as (w3 & He2 & Hs2 & Ho2).
  rewrite (bind_ok _ _ _ _ _ He1), (bind_ok _ _ _ _ _ He2).
  destruct (st_emit_same (StInfo (u "**Total saved this submission: " ++ str_of_Z (Z.of_nat (length s)) ++ u "**")) w3)
    as (w4 & He3 & Hs3 & Ho3).
  rewrite (bind_ok _ _ _ _ _ He3).
  exists w4. split; [reflexivity|]. split; [exact Hrun|].
  split; [eauto using same_store_trans|].
  unfold report_events. rewrite Ho3, Ho2, Ho1, <- !app_assoc. reflexivity.
Qed.

Lemma main_submit_rejected E username files w :
  strip username = [] \/ dict_len files = 0 ->
  exists msg,
    main_submit E username files w
    = (Ok Rejected,
       mk_world (g_mongo_client w) (g_mongo_fs w) (put_calls w) (bucket w)
                (st_out w ++ [StError msg]) (clock_reads w)).
Proof.
  intros H. unfold main_submit.
  destruct (strip username) as [|c r] eqn:Hs.
  - eexists. reflexivity.
  - destruct H as [H|H]; [discriminate|]. rewrite H.
    eexists. reflexivity.
Qed.

(** *** Interleavings *)

Lemma interleave_perm {A} (l1 l2 l : list A) :
  interleave l1 l2 l -> Permutation (l1 ++ l2) l.
Proof.
  induction 1 as [|x l1 l2 l _ IH|x l1 l2 l _ IH]; simpl.
  - constructor.
  - now constructor.
  - rewrite <- IH. symmetry. apply Permutation_middle.
Qed.

Lemma interleave_in {A} (l1 l2 l : list A) x :
  interleave l1 l2 l -> (In x l <-> In x l1 \/ In x l2).
Proof.
  intros H. pose proof (interleave_perm _ _ _ H) as Hp. split.
  - intros Hi. apply in_app_or. eapply Permutation_in; [symmetry; exact Hp|exact Hi].
  - intros Hi. eapply Permutation_in; [exact Hp|]. now apply in_or_app.
Qed.

Lemma interleave_disjoint {A} (l1 l2 l : list A) x :
  interleave l1 l2 l -> NoDup l -> In x l1 -> ~ In x l2.
Proof.
  intros H Hnd H1 H2.
  pose proof (interleave_perm _ _ _ H) as Hp.
  apply Permutation_sym in Hp.
  pose proof (Permutation_NoDup Hp Hnd) as Hnd'.
  apply in_split in H1. destruct H1 as (a & b & ->).
  rewrite <- app_assoc in Hnd'. apply NoDup_remove_2 in Hnd'.
  apply Hnd'. rewrite app_assoc. apply in_or_app. now right.
Qed.

Section Loop.

Variable E : Env.
Variable files : dict.
Variable user : str.

Lemma loop_run_interleave spells w s k w' :
  loop_run E files user spells w s k w' -> interleave (map fst s) k spells.
Proof. induction 1; simpl; now constructor. Qed.

Lemma loop_run_ids spells w s k w' :
  loop_run E files user spells w s k w' -> Forall (fun e => snd e <> []) s.
Proof.
  induction 1; auto. constructor; [|assumption].
  simpl. apply truthy_nonempty. eapply save_outcome_some_truthy; eauto.
Qed.

(** Every label of the pass has its own outcome. *)
Lemma loop_run_classify spells w s k w' spell :
  loop_run E files user spells w s k w' -> In spell spells ->
  match dict_get files spell with
  | None => In spell k
  | Some b =>
      (exists w1 w2 id, save_outcome E b spell user w1 (Some id) w2 /\ In (spell, id) s)
      \/ (exists w1 w2, save_outcome E b spell user w1 None w2 /\ In spell k)
  end.
Proof.
  induction 1 as [w|sp rest w s k w' Hget _ IH|sp rest b id w w1 s k w' Hget Hout _ IH
                 |sp rest b w w1 s k w' Hget Hout _ IH]; intros Hin.
  - destruct Hin.
  - destruct Hin as [<-|Hin].
    + rewrite Hget. now left.
    + specialize (IH Hin). destruct (dict_get files spell).
      * destruct IH as [(a & c & i & ? & ?)|(a & c & ? & ?)]; [left|right]; eauto 6 using in_cons.
      * now right.
  - destruct Hin as [<-|Hin].
    + rewrite Hget. left. exists w, w1, id. split; [assumption|now left].
    + specialize (IH Hin). destruct (dict_get files spell).
      * destruct IH as [(a & c & i & ? & ?)|(a & c & ? & ?)]; [left|right]; eauto 6 using in_cons.
      * assumption.
  - destruct Hin as [<-|Hin].
    + rewrite Hget. right. exists w, w1. split; [assumption|now left].
    + specialize (IH Hin). destruct (dict_get files spell).
      * destruct IH as [(a & c & i & ? & ?)|(a & c & ? & ?)]; [left|right]; eauto 6 using in_cons.
      * now right.
Qed.

(** What the pass adds to the log of [fs.put] calls and to the bucket. *)
Lemma loop_run_store spells w s k w' :
  loop_run E files user spells w s k w' ->
  exists calls added,
    put_calls w' = put_calls w ++ calls
    /\ bucket w' = bucket w ++ added
    /\ Forall (fun req =>
                 md_username (put_metadata req) = user
                 /\ In (md_spell (put_metadata req)) spells
                 /\ exists b, dict_get files (md_spell (put_metadata req)) = Some b
                              /\ normalize E b = Ok (Some (put_data req))) calls
    /\ map (fun p => (md_spell (put_metadata (snd p)), str_of_oid (fst p))) added = s
    /\ Forall (fun p => In (snd p) calls) added.
Proof.
  induction 1 as [w|sp rest w s k w' Hget _ IH|sp rest b id w w1 s k w' Hget Hout _ IH
                 |sp rest b w w1 s k w' Hget Hout _ IH].
  - exists [], []. rewrite !app_nil_r. repeat split; constructor.
  - destruct IH as (calls & added & Hc & Hb & Hf & Hm & Ha).
    exists calls, added. repeat split; auto.
    eapply Forall_impl; [|exact Hf]. cbv beta. intros req (? & ? & ?). auto using in_cons.
  - destruct IH as (calls & added & Hc & Hb & Hf & Hm & Ha).
    inversion Hout as [| | | |wav fs ts oid w2 Hn Huri Hh Hput Hpc Hbk]; subst.
    exists (put_request wav sp user ts :: calls),
           ((oid, put_request wav sp user ts) :: added).
    rewrite Hc, Hb, Hpc, Hbk, <- !app_assoc. repeat split.
    + constructor.
      * cbn. split; [reflexivity|]. split; [now left|]. exists b. split; assumption.
      * eapply Forall_impl; [|exact Hf]. cbv beta. intros req (? & ? & ?). auto using in_cons.
    + constructor; [now left|].
      eapply Forall_impl; [|exact Ha]. cbv beta. intros p Hp. now right.
  - destruct IH as (calls & added & Hc & Hb & Hf & Hm & Ha).
    assert (Hrest : Forall (fun req =>
                 md_username (put_metadata req) = user
                 /\ In (md_spell (put_metadata req)) (sp :: rest)
                 /\ exists b, dict_get files (md_spell (put_metadata req)) = Some b
                              /\ normalize E b = Ok (Some (put_data req))) calls).
    { eapply Forall_impl; [|exact Hf]. cbv beta. intros req (? & ? & ?). auto using in_cons. }
    inversion Hout as [w2 Hn Hpc Hbk Hh|wav Hn Huri|wav e w2 Hn Huri Hfs Hconn Hpc Hbk Hh
                      |wav fs ts e w2 Hn Huri Hh' Hput Hpc Hbk|]; subst.
    + exists calls, added. rewrite Hc, Hb, Hpc, Hbk. repeat split; auto.
    + exists calls, added. repeat split; auto.
    + exists calls, added. rewrite Hc, Hb, Hpc, Hbk. repeat split; auto.
    + exists (put_request wav sp user ts :: calls), added.
      rewrite Hc, Hb, Hpc, Hbk, <- !app_assoc. repeat split; auto.
      * constructor; [|exact Hrest].
        cbn. split; [reflexivity|]. split; [now left|]. exists b. split; assumption.
      * eapply Forall_impl; [|exact Ha]. cbv beta. intros p Hp. now right.
Qed.

(** Without a connection string the pass changes nothing and saves
    nothing. *)
Lemma loop_run_no_uri spells w s k w' :
  MONGO_URI E = [] ->
  loop_run E files user spells w s k w' ->
  s = [] /\ k = spells /\ put_calls w' = put_calls w /\ bucket w' = bucket w
  /\ ((forall spell b, dict_get files spell = Some b ->
                       exists wav, normalize E b = Ok (Some wav)) -> w' = w).
Proof.
  intros Huri.
  induction 1 as [w|sp rest w s k w' Hget _ IH|sp rest b id w w1 s k w' Hget Hout _ IH
                 |sp rest b w w1 s k w' Hget Hout _ IH].
  - repeat split.
  - destruct IH as (-> & -> & Hc & Hb & Hw). repeat split; auto.
  - inversion Hout; subst. congruence.
  - destruct IH as (-> & -> & Hc & Hb & Hw).
    inversion Hout as [w2 Hn Hpc Hbk Hh|wav Hn Hu|wav e w2 Hn Hu|wav fs ts e w2 Hn Hu|]; subst;
      try congruence.
    + repeat split; try congruence.
      intros Hall. destruct (Hall _ _ Hget) as (wav & Hwav). exfalso. eapply Hn; eauto.
    + repeat split; auto.
Qed.

End Loop.

(** *** When a call cannot store, and when it must *)

Lemma save_outcome_needs_normalize E b spell user w id w' :
  (forall wav, normalize E b <> Ok (Some wav)) ->
  ~ save_outcome E b spell user w (Some id) w'.
Proof. intros Hn Hout. inversion Hout; subst. eapply Hn; eauto. Qed.

Lemma save_outcome_needs_put E b spell user w id w' :
  (forall fs bk wav ts, exists e,
      gridfs_put E fs bk (put_request wav spell user ts) = Raise e) ->
  ~ save_outcome E b spell user w (Some id) w'.
Proof.
  intros Hp Hout.
  inversion Hout as [| | | |wav fs ts oid w2 Hn Huri Hh Hput Hpc Hbk]; subst.
  destruct (Hp fs (bucket w) wav ts) as (e & He). congruence.
Qed.

Lemma save_outcome_must_store E b spell user w w' wav :
  normalize E b = Ok (Some wav) ->
  MONGO_URI E <> [] ->
  (exists c, mongo_connect E (MONGO_URI E) = Ok c) ->
  (forall fs bk ts, exists id,
      gridfs_put E fs bk (put_request wav spell user ts) = Ok id) ->
  ~ save_outcome E b spell user w None w'.
Proof.
  intros Hn Huri (c & Hc) Hp Hout.
  inversion Hout as [w2 Hn' Hpc Hbk Hh|wav' Hn' Hu|wav' e w2 Hn' Hu Hfs Hconn Hpc Hbk Hh
                    |wav' fs ts e w2 Hn' Hu Hh' Hput Hpc Hbk|]; subst.
  - eapply Hn'; eauto.
  - congruence.
  - congruence.
  - assert (wav' = wav) by congruence. subst wav'.
    destruct (Hp fs (bucket w) ts) as (id & Hid). congruence.
Qed.

(** ** Rejection, missing configuration *)

(** *** Text without whitespace *)

Lemma lstrip_by_head p s :
  match s with [] => True | c :: _ => p c = false end -> lstrip_by p s = s.
Proof. destruct s as [|c r]; simpl; [reflexivity|]. now intros ->. Qed.

Lemma strip_by_id p s :
  Forall (fun c => p c = false) s -> strip_by p s = s.
Proof.
  intros H. unfold strip_by, rstrip_by.
  rewrite (lstrip_by_head p s) by (destruct H; auto).
  rewrite (lstrip_by_head p (rev s)); [apply rev_involutive|].
  apply Forall_rev in H. destruct H; auto.
Qed.

Lemma ident_not_space c : is_ident_char c = true -> isspace c = false.
Proof.
  unfold is_ident_char, is_lower, is_digit. intros H.
  repeat (apply orb_true_iff in H; destruct H as [H|H]);
    try (apply andb_true_iff in H; destruct H as [H1 H2];
         apply N.leb_le in H1; apply N.leb_le in H2);
    try apply N.eqb_eq in H;
    unfold isspace;
    repeat match goal with
           | |- context [(?a <=? ?b)%N] =>
               first [ replace (a <=? b)%N with true by (symmetry; apply N.leb_le; lia)
                     | replace (a <=? b)%N with false by (symmetry; apply N.leb_gt; lia) ]
           | |- context [(?a =? ?b)%N] =>
               replace (a =? b)%N with false by (symmetry; apply N.eqb_neq; lia)
           end; reflexivity.
Qed.

Lemma sanitized_strip (name : option str) :
  strip (sanitize_username name) = sanitize_username name.
Proof.
  apply strip_by_id.
  eapply Forall_impl; [|apply sanitize_username_charset].
  apply ident_not_space.
Qed.

Lemma re_sub_runs_no_class cls repl b s :
  Forall (fun c => cls c = false) s -> re_sub_runs_from cls repl b s = s.
Proof.
  intros H. revert b. induction H as [|c s Hc _ IH]; intros b; simpl; [reflexivity|].
  rewrite Hc. now rewrite IH.
Qed.

Lemma filter_none {A} (p : A -> bool) l :
  Forall (fun c => p c = false) l -> filter p l = [].
Proof. induction 1 as [|c l Hc _ IH]; simpl; [reflexivity|]. now rewrite Hc. Qed.

(** A name made of characters that are neither allowed nor whitespace
    is not blank, and is stored as "anon". *)
Lemma disallowed_name_is_anon (username : str) :
  username <> [] ->
  Forall (fun c => is_name_char c = false /\ isspace c = false) username ->
  strip username = username /\ sanitize_username (Some username) = anon.
Proof.
  intros Hne Hall.
  assert (Hsp : Forall (fun c => isspace c = false) username)
    by (eapply Forall_impl; [|exact Hall]; now intros c [_ H]).
  assert (Hnm : Forall (fun c => is_name_char c = false) username)
    by (eapply Forall_impl; [|exact Hall]; now intros c [H _]).
  assert (Hstrip : strip username = username) by (now apply strip_by_id).
  split; [exact Hstrip|].
  unfold sanitize_username.
  destruct username as [|c r]; [congruence|]. cbn [truthy negb].
  rewrite Hstrip. unfold re_sub_runs. rewrite re_sub_runs_no_class by exact Hsp.
  rewrite re_sub_each_filter, filter_none by exact Hnm. reflexivity.
Qed.

Lemma collect_audio_files_none audio_input spells d :
  (forall spell, In spell spells -> audio_input spell = None) ->
  collect_audio_files audio_input spells d = d.
Proof.
  induction spells as [|spell rest IH]; intros H; [reflexivity|].
  cbn [collect_audio_files]. rewrite (H spell) by (now left).
  apply IH. intros sp Hsp. apply H. now right.
Qed.

(** A press of the button: the page is drawn, then [main_submit] runs
    on the recordings collected from the widgets. *)
Lemma main_clicked E username audio_input w :
  exists w1,
    same_store w w1
    /\ main E username audio_input true w
       = main_submit E username (collect_audio_files audio_input SPELLS []) w1.
Proof.
  unfold main.
  assert (H1 : exists wa,
    (if negb (truthy (MONGO_URI E))
     then st_emit (StWarning ([9888; 65039]%N ++ u " Database not configured. Set MONGO_URI in your environment or .env file."))
     else ret tt) w = (Ok tt, wa) /\ same_store w wa).
  { destruct (negb (truthy (MONGO_URI E))).
    - destruct (st_emit_same (StWarning ([9888; 65039]%N ++ u " Database not configured. Set MONGO_URI in your environment or .env file.")) w)
        as (wa & He & Hs & _). eauto.
    - exists w. split; [reflexivity|apply same_store_refl]. }
  destruct H1 as (wa & He1 & Hs1).
  rewrite (bind_ok _ _ _ _ _ He1).
  match goal with |- context [st_emit ?ev] =>
    destruct (st_emit_same ev wa) as (wb & He2 & Hs2 & _)
  end.
  rewrite (bind_ok _ _ _ _ _ He2).
  exists wb. split; [eapply same_store_trans; eauto|reflexivity].
Qed.

(** C3.  A submission whose identity is blank once trimmed, or that
    carries no recording, is rejected at once: the outcome is
    [Rejected] (nothing is saved), one error message is shown, and the
    world is otherwise untouched: no [fs.put] call, no file in the
    bucket, no connection, no reading of the clock.  The check is made
    on the trimmed text as typed; the identity after sanitisation is
    never blank, so the second alternative below cannot arise on its
    own.  The same holds for [main] when the button is pressed with a
    blank identity or with no recorder holding a recording. *)
Theorem blank_identity_or_no_recording_is_rejected :
  (forall E (username : str) (files : dict) w,
     strip username = []
     \/ strip (sanitize_username (Some username)) = []
     \/ dict_len files = 0 ->
     exists msg,
       main_submit E username files w
       = (Ok Rejected,
          mk_world (g_mongo_client w) (g_mongo_fs w) (put_calls w) (bucket w)
                   (st_out w ++ [StError msg]) (clock_reads w))
       /\ put_calls (snd (main_submit E username files w)) = put_calls w
       /\ bucket (snd (main_submit E username files w)) = bucket w)
  /\ (forall E (username : str) (audio_input : str -> option bytes) w,
        strip username = []
        \/ (forall spell, In spell SPELLS -> audio_input spell = None) ->
        fst (main E username audio_input true w) = Ok Rejected
        /\ put_calls (snd (main E username audio_input true w)) = put_calls w
        /\ bucket (snd (main E username audio_input true w)) = bucket w
        /\ g_mongo_fs (snd (main E username audio_input true w)) = g_mongo_fs w
        /\ clock_reads (snd (main E username audio_input true w)) = clock_reads w).
Proof.
  split.
  - intros E username files w H.
    assert (H' : strip username = [] \/ dict_len files = 0).
    { destruct H as [H|[H|H]]; auto.
      rewrite sanitized_strip in H. now apply sanitize_username_nonempty in H. }
    destruct (main_submit_rejected E username files w H') as (msg & Hm).
    exists msg. rewrite Hm. repeat split.
  - intros E username audio_input w H.
    destruct (main_clicked E username audio_input w) as (w1 & Hs & Heq).
    rewrite Heq.
    assert (H' : strip username = []
                 \/ dict_len (collect_audio_files audio_input SPELLS []) = 0).
    { destruct H as [H|H]; [now left|right].
      now rewrite collect_audio_files_none. }
    destruct (main_submit_rejected E username _ w1 H') as (msg & Hm).
    rewrite Hm. destruct Hs as (_ & Hs2 & Hs3 & Hs4 & Hs5).
    cbn [fst snd put_calls bucket g_mongo_fs clock_reads]. auto.
Qed.

(** The empty identity with one recording, on a working store. *)
Lemma blank_identity_or_no_recording_is_rejected_witness :
  (strip (u "   ") = []
   \/ strip (sanitize_username (Some (u "   "))) = []
   \/ dict_len [(u "Lumos", Demo.rec_mono)] = 0)
  /\ fst (main_submit Demo.env (u "   ") [(u "Lumos", Demo.rec_mono)] Demo.w0) = Ok Rejected
  /\ put_calls (snd (main_submit Demo.env (u "   ") [(u "Lumos", Demo.rec_mono)] Demo.w0)) = [].
Proof.
  assert (H : strip (u "   ") = []
              \/ strip (sanitize_username (Some (u "   "))) = []
              \/ dict_len [(u "Lumos", Demo.rec_mono)] = 0) by (left; reflexivity).
  split; [exact H|].
  destruct (proj1 blank_identity_or_no_recording_is_rejected Demo.env (u "   ")
              [(u "Lumos", Demo.rec_mono)] Demo.w0 H) as (msg & Heq & Hc & _).
  split; [now rewrite Heq|exact Hc].
Defined.

Lemma get_gridfs_no_uri E w : MONGO_URI E = [] -> get_gridfs E w = (Ok None, w).
Proof. intros H. unfold get_gridfs. now rewrite H. Qed.

Lemma report_events_no_error saved skipped :
  Forall (fun ev => forall msg, ev <> StError msg) (report_events saved skipped).
Proof.
  unfold report_events. rewrite !Forall_app. repeat split.
  - destruct saved; constructor; [discriminate|].
    apply Forall_forall. intros ev Hev. apply in_map_iff in Hev.
    destruct Hev as (x & <- & _). discriminate.
  - apply Forall_forall. intros ev Hev. apply in_map_iff in Hev.
    destruct Hev as (x & <- & _). discriminate.
  - repeat constructor. discriminate.
Qed.

(** C9.  Without a connection string [get_gridfs] answers [None]
    without raising or connecting, and an accepted submission ends
    normally with every label skipped and none saved: no [fs.put] call
    is made and the bucket is unchanged.  When the recordings provided
    all normalise, nothing but the report is shown: no error message
    reaches the page. *)
Theorem missing_connection_string_skips_everything :
  forall E username files w,
    MONGO_URI E = [] ->
    strip username <> [] -> dict_len files <> 0 ->
    get_gridfs E w = (Ok None, w)
    /\ exists w',
         main_submit E username files w = (Ok (Report [] SPELLS), w')
         /\ put_calls w' = put_calls w
         /\ bucket w' = bucket w
         /\ g_mongo_fs w' = g_mongo_fs w
         /\ ((forall spell b, dict_get files spell = Some b ->
                              exists wav, normalize E b = Ok (Some wav)) ->
             st_out w' = st_out w ++ report_events [] SPELLS
             /\ Forall (fun ev => forall msg, ev <> StError msg)
                       (report_events [] SPELLS)).
Proof.
  intros E username files w Huri Hname Hcount.
  split; [now apply get_gridfs_no_uri|].
  destruct (main_submit_accepted E username files w Hname Hcount)
    as (s & k & w1 & w' & Heq & Hrun & Hsame & Hout).
  destruct (loop_run_no_uri E files _ _ _ _ _ _ Huri Hrun) as (-> & -> & Hc & Hb & Hw).
  destruct Hsame as (Hs1 & Hs2 & Hs3 & Hs4 & Hs5).
  exists w'. split; [exact Heq|].
  split; [congruence|]. split; [congruence|]. split.
  - rewrite Hs2.
    clear - Hrun Huri. 
    induction Hrun as [w|sp rest w s k w' Hget _ IH|sp rest b id w w1 s k w' Hget Hout _ IH
                      |sp rest b w w1 s k w' Hget Hout _ IH]; auto.
    + inversion Hout; subst; congruence.
    + rewrite IH. inversion Hout; subst; congruence.
  - intros Hall. rewrite (Hw Hall) in Hout.
    split; [exact Hout|apply report_events_no_error].
Qed.

Lemma missing_connection_string_skips_everything_witness :
  MONGO_URI Demo.env_no_uri = []
  /\ strip (u "Ron") <> [] /\ dict_len [(u "Lumos", Demo.rec_mono)] <> 0
  /\ fst (main_submit Demo.env_no_uri (u "Ron") [(u "Lumos", Demo.rec_mono)] Demo.w0)
     = Ok (Report [] SPELLS)
  /\ put_calls (snd (main_submit Demo.env_no_uri (u "Ron")
                       [(u "Lumos", Demo.rec_mono)] Demo.w0)) = [].
Proof.
  assert (H1 : strip (u "Ron") <> []) by discriminate.
  assert (H2 : dict_len [(u "Lumos", Demo.rec_mono)] <> 0) by discriminate.
  split; [reflexivity|]. split; [exact H1|]. split; [exact H2|].
  destruct (missing_connection_string_skips_everything Demo.env_no_uri (u "Ron")
              [(u "Lumos", Demo.rec_mono)] Demo.w0 eq_refl H1 H2)
    as (_ & w' & Heq & Hc & _).
  rewrite Heq. split; [reflexivity|exact Hc].
Defined.

(** ** Identity of the stored recordings *)

(** C10.  [sanitize_username] never returns the empty string and
    returns only characters of [[a-z0-9_-]]; "!!!" becomes "anon".  A
    name made only of characters that are neither allowed nor
    whitespace is therefore not rejected when a recording is provided
    (the check reads the trimmed text as typed), and every [fs.put]
    call and every file stored by that submission carries the identity
    "anon". *)
Theorem disallowed_identity_is_stored_as_anon :
  (forall name,
     sanitize_username name <> []
     /\ Forall (fun c => is_ident_char c = true) (sanitize_username name))
  /\ sanitize_username (Some (u "!!!")) = u "anon"
  /\ forall E (username : str) (files : dict) w,
       username <> [] ->
       Forall (fun c => is_name_char c = false /\ isspace c = false) username ->
       dict_len files <> 0 ->
       strip username <> []
       /\ sanitize_username (Some username) = u "anon"
       /\ exists saved skipped w',
            main_submit E username files w = (Ok (Report saved skipped), w')
            /\ (forall req, In req (put_calls w') ->
                  In req (put_calls w)
                  \/ md_username (put_metadata req) = u "anon")
            /\ (forall p, In p (bucket w') ->
                  In p (bucket w)
                  \/ md_username (put_metadata (snd p)) = u "anon").
Proof.
  split; [intros name; split;
          [apply sanitize_username_nonempty|apply sanitize_username_charset]|].
  split; [reflexivity|].
  intros E username files w Hne Hall Hcount.
  destruct (disallowed_name_is_anon username Hne Hall) as [Hstrip Hanon].
  assert (Hs : strip username <> []) by congruence.
  split; [exact Hs|]. split; [exact Hanon|].
  destruct (main_submit_accepted E username files w Hs Hcount)
    as (s & k & w1 & w' & Heq & Hrun & Hsame & _).
  rewrite Hanon in Hrun.
  destruct (loop_run_store E files _ _ _ _ _ _ Hrun)
    as (calls & added & Hc & Hb & Hf & _ & Ha).
  destruct Hsame as (_ & _ & Hs3 & Hs4 & _).
  exists s, k, w'. split; [exact Heq|]. split.
  - intros req Hin. rewrite Hs3, Hc in Hin. apply in_app_or in Hin.
    destruct Hin as [Hin|Hin]; [now left|right].
    rewrite Forall_forall in Hf. now apply Hf.
  - intros p Hin. rewrite Hs4, Hb in Hin. apply in_app_or in Hin.
    destruct Hin as [Hin|Hin]; [now left|right].
    rewrite Forall_forall in Hf, Ha. apply Hf. now apply Ha.
Qed.

Lemma disallowed_identity_is_stored_as_anon_witness :
  u "!!!" <> []
  /\ Forall (fun c => is_name_char c = false /\ isspace c = false) (u "!!!")
  /\ dict_len [(u "Lumos", Demo.rec_mono)] <> 0
  /\ exists saved skipped w',
       main_submit Demo.env (u "!!!") [(u "Lumos", Demo.rec_mono)] Demo.w0
       = (Ok (Report saved skipped), w')
       /\ Forall (fun req => md_username (put_metadata req) = u "anon") (put_calls w').
Proof.
  assert (H1 : u "!!!" <> []) by discriminate.
  assert (H2 : Forall (fun c => is_name_char c = false /\ isspace c = false) (u "!!!"))
    by (repeat constructor).
  assert (H3 : dict_len [(u "Lumos", Demo.rec_mono)] <> 0) by discriminate.
  split; [exact H1|]. split; [exact H2|]. split; [exact H3|].
  destruct (proj2 (proj2 disallowed_identity_is_stored_as_anon) Demo.env (u "!!!")
              [(u "Lumos", Demo.rec_mono)] Demo.w0 H1 H2 H3)
    as (_ & _ & saved & skipped & w' & Heq & Hcalls & _).
  exists saved, skipped, w'. split; [exact Heq|].
  apply Forall_forall. intros req Hin.
  destruct (Hcalls req Hin) as [[]|H]. exact H.
Defined.

(** *** The dictionary *)

Lemma dict_get_some_in d k v : dict_get d k = Some v -> In (k, v) d.
Proof.
  induction d as [|[k' v'] d IH]; simpl; [discriminate|].
  destruct (str_eqb k' k) eqn:He.
  - apply str_eqb_eq in He. intros [= ->]. left. congruence.
  - intros H. right. now apply IH.
Qed.

Lemma dict_get_in d k v :
  NoDup (map fst d) -> In (k, v) d -> dict_get d k = Some v.
Proof.
  induction d as [|[k' v'] d IH]; simpl; intros Hnd Hin; [destruct Hin|].
  inversion Hnd as [|? ? Hnotin Hnd']; subst.
  destruct Hin as [[= -> ->]|Hin].
  - replace (str_eqb k k) with true by (symmetry; now apply str_eqb_eq). reflexivity.
  - destruct (str_eqb k' k) eqn:He.
    + apply str_eqb_eq in He. subst k'. exfalso. apply Hnotin.
      apply in_map_iff. exists (k, v). split; [reflexivity|assumption].
    + now apply IH.
Qed.

(** Looking a label up does not depend on the order of the entries. *)
Lemma dict_get_perm d d' k :
  NoDup (map fst d) -> Permutation d d' -> dict_get d k = dict_get d' k.
Proof.
  intros Hnd Hp.
  assert (Hnd' : NoDup (map fst d'))
    by (eapply Permutation_NoDup; [apply Permutation_map; exact Hp|exact Hnd]).
  destruct (dict_get d k) as [v|] eqn:H1.
  - symmetry. apply dict_get_in; [exact Hnd'|].
    eapply Permutation_in; [exact Hp|]. now apply dict_get_some_in.
  - destruct (dict_get d' k) as [v|] eqn:H2; [|reflexivity].
    apply dict_get_some_in in H2.
    apply (Permutation_in _ (Permutation_sym Hp)) in H2.
    apply (dict_get_in _ _ _ Hnd) in H2. congruence.
Qed.

Lemma process_spells_ext E spells d d' user :
  (forall k, In k spells -> dict_get d k = dict_get d' k) ->
  forall saved skipped w,
    process_spells E spells d user saved skipped w
    = process_spells E spells d' user saved skipped w.
Proof.
  induction spells as [|spell rest IH]; intros Hext saved skipped w; [reflexivity|].
  cbn [process_spells]. rewrite <- (Hext spell) by (now left).
  assert (Hrest : forall k, In k rest -> dict_get d k = dict_get d' k)
    by (intros k Hk; apply Hext; now right).
  destruct (dict_get d spell) as [b|]; [|now apply IH].
  unfold bind. destruct (save_audio_to_mongo E b spell user w) as [[[id|]|e] w1];
    try reflexivity; try (now apply IH).
  destruct (truthy id); now apply IH.
Qed.

Lemma bind_ext_l {A B} (m m' : M A) (k : A -> M B) w :
  m w = m' w -> bind m k w = bind m' k w.
Proof. intros H. unfold bind. now rewrite H. Qed.

Lemma main_submit_perm E username d d' w :
  NoDup (map fst d) -> Permutation d d' ->
  main_submit E username d w = main_submit E username d' w.
Proof.
  intros Hnd Hp. unfold main_submit, dict_len.
  rewrite (Permutation_length Hp).
  destruct (negb (truthy (strip username))); [reflexivity|].
  destruct (Z.of_nat (length d') =? 0); [reflexivity|].
  apply bind_ext_l. apply process_spells_ext.
  intros k _. now apply dict_get_perm.
Qed.

(** ** Failures and order *)

Lemma SPELLS_nodup : NoDup SPELLS.
Proof.
  unfold SPELLS. cbn [map].
  repeat (constructor; [cbn [In]; intros H;
                        repeat (destruct H as [H|H]; [discriminate H|]); exact H|]).
  constructor.
Qed.

(** With no handle and a constructor that raises, no call can reach
    [fs.put]; the handle stays absent. *)
Lemma save_outcome_no_connect E b spell user w o w' :
  g_mongo_fs w = None ->
  (exists e, mongo_connect E (MONGO_URI E) = Raise e) ->
  save_outcome E b spell user w o w' ->
  o = None /\ g_mongo_fs w' = None.
Proof.
  intros Hfs (e & He) Hout.
  inversion Hout as [w2 Hn Hpc Hbk Hh|wav Hn Hu|wav e' w2 Hn Hu Hfs' Hconn Hpc Hbk Hh
                    |wav fs ts e' w2 Hn Hu Hh Hput Hpc Hbk
                    |wav fs ts id w2 Hn Hu Hh Hput Hpc Hbk]; subst.
  - split; congruence.
  - auto.
  - auto.
  - destruct Hh as [Hh|[_ Hh]]; congruence.
  - destruct Hh as [Hh|[_ Hh]]; congruence.
Qed.

Lemma loop_run_no_connect E files user spells w s k w' :
  g_mongo_fs w = None ->
  (exists e, mongo_connect E (MONGO_URI E) = Raise e) ->
  loop_run E files user spells w s k w' ->
  s = [] /\ k = spells.
Proof.
  intros Hfs Hc Hrun. revert Hfs.
  induction Hrun as [w|sp rest w s k w' Hget _ IH|sp rest b id w w1 s k w' Hget Hout _ IH
                    |sp rest b w w1 s k w' Hget Hout _ IH]; intros Hfs.
  - auto.
  - destruct (IH Hfs) as [-> ->]. auto.
  - destruct (save_outcome_no_connect _ _ _ _ _ _ _ Hfs Hc Hout) as [H _]. discriminate H.
  - destruct (save_outcome_no_connect _ _ _ _ _ _ _ Hfs Hc Hout) as [_ H].
    destruct (IH H) as [-> ->]. auto.
Qed.

(** *** One label at the point where the loop reaches it *)

Lemma store_wav_at E wav spell user w :
  store_wav E wav spell user w
  = match get_gridfs E w with
    | (Raise e, wg) => (Raise e, wg)
    | (Ok None, wg) => (Ok None, wg)
    | (Ok (Some fs), wg) => put_wav E fs wav spell user wg
    end.
Proof.
  unfold store_wav, bind. destruct (get_gridfs E w) as [[[fs|]|e] wg]; reflexivity.
Qed.

Lemma put_wav_at E fs wav spell user w :
  put_wav E fs wav spell user w
  = match gridfs_put E fs (bucket w)
            (put_request wav spell user (time_ms E (clock_reads w))) with
    | Ok id =>
        (Ok (Some (str_of_oid id)),
         mk_world (g_mongo_client w) (g_mongo_fs w)
                  (put_calls w ++ [put_request wav spell user (time_ms E (clock_reads w))])
                  (bucket w ++ [(id, put_request wav spell user (time_ms E (clock_reads w)))])
                  (st_out w) (S (clock_reads w)))
    | Raise e =>
        (Raise e,
         mk_world (g_mongo_client w) (g_mongo_fs w)
                  (put_calls w ++ [put_request wav spell user (time_ms E (clock_reads w))])
                  (bucket w) (st_out w) (S (clock_reads w)))
    end.
Proof.
  unfold put_wav, bind, now_ms, fs_put, ret. cbv beta iota.
  cbn [bucket put_calls g_mongo_client g_mongo_fs st_out clock_reads].
  destruct (gridfs_put E fs (bucket w)
              (put_request wav spell user (time_ms E (clock_reads w)))); reflexivity.
Qed.

(** [get_gridfs] touches nothing but the two globals. *)
Lemma get_gridfs_frame E w :
  put_calls (snd (get_gridfs E w)) = put_calls w
  /\ bucket (snd (get_gridfs E w)) = bucket w
  /\ st_out (snd (get_gridfs E w)) = st_out w
  /\ clock_reads (snd (get_gridfs E w)) = clock_reads w.
Proof.
  unfold get_gridfs. destruct (negb (truthy (MONGO_URI E))); [repeat split|].
  destruct (g_mongo_fs w); [repeat split|].
  unfold bind, lift. destruct (mongo_connect E (MONGO_URI E)); repeat split.
Qed.

(** An exception in the call is caught: the call returns [None], the
    bucket is as before and the message is on the page. *)
Lemma save_audio_to_mongo_raises E b spell user w e :
  raises_in_call E b spell user w e ->
  exists w2,
    save_audio_to_mongo E b spell user w = (Ok None, w2)
    /\ bucket w2 = bucket w
    /\ st_out w2 = st_out w ++ [processing_error e].
Proof.
  intros Hr. unfold save_audio_to_mongo, try_except.
  rewrite save_audio_body_split.
  destruct Hr as [Hn|(wav & Hn & Hr)]; rewrite Hn.
  - eexists. split; [reflexivity|]. split; reflexivity.
  - rewrite store_wav_at.
    destruct (get_gridfs_frame E w) as (_ & Hb & Ho & Hc).
    destruct (get_gridfs E w) as [r wg]. cbn [fst snd] in *.
    destruct Hr as [->|(fs & -> & Hput)].
    + eexists. split; [reflexivity|]. cbn. rewrite Hb, Ho. split; reflexivity.
    + rewrite put_wav_at, Hb, Hc, Hput.
      eexists. split; [reflexivity|]. cbn. rewrite Ho. split; reflexivity.
Qed.

(** Every exception of the [try] block is one of those. *)
Lemma save_audio_body_raises E b spell user w e :
  (exists wb, save_audio_body E b spell user w = (Raise e, wb))
  <-> raises_in_call E b spell user w e.
Proof.
  rewrite save_audio_body_split. unfold raises_in_call.
  destruct (normalize E b) as [[wav|]|e0] eqn:Hn.
  - rewrite store_wav_at.
    destruct (get_gridfs_frame E w) as (_ & Hb & _ & Hc).
    destruct (get_gridfs E w) as [[[fs|]|e1] wg]; cbn [fst snd] in *.
    + rewrite put_wav_at, Hb, Hc. split.
      * intros (wb & H). right. exists wav. split; [reflexivity|]. right.
        exists fs. split; [reflexivity|].
        destruct (gridfs_put E fs (bucket w)
                    (put_request wav spell user (time_ms E (clock_reads w))));
          congruence.
      * intros [H|(wav' & Hw & [H|(fs' & Hfs & Hput)])]; try discriminate.
        injection Hw as <-. injection Hfs as <-. rewrite Hput. eauto.
    + split.
      * intros (wb & H). discriminate.
      * intros [H|(wav' & Hw & [H|(fs' & Hfs & Hput)])]; discriminate.
    + split.
      * intros (wb & H). injection H as -> _. right. exists wav. auto.
      * intros [H|(wav' & Hw & [H|(fs' & Hfs & Hput)])]; try discriminate.
        injection H as ->. eauto.
  - split.
    + intros (wb & H). discriminate.
    + intros [H|(wav' & Hw & _)]; discriminate.
  - split.
    + intros (wb & H). injection H as -> _. now left.
    + intros [H|(wav' & Hw & _)]; [|discriminate]. injection H as ->. eauto.
Qed.

(** A write that the store accepts right then stores the file. *)
Lemma save_audio_to_mongo_stores E b spell user w wav fs id :
  normalize E b = Ok (Some wav) ->
  fst (get_gridfs E w) = Ok (Some fs) ->
  gridfs_put E fs (bucket w)
    (put_request wav spell user (time_ms E (clock_reads w))) = Ok id ->
  exists w2,
    save_audio_to_mongo E b spell user w = (Ok (Some (str_of_oid id)), w2)
    /\ bucket w2
       = bucket w ++ [(id, put_request wav spell user (time_ms E (clock_reads w)))].
Proof.
  intros Hn Hfs Hput. unfold save_audio_to_mongo, try_except.
  rewrite save_audio_body_split, Hn, store_wav_at.
  destruct (get_gridfs_frame E w) as (_ & Hb & _ & Hc).
  destruct (get_gridfs E w) as [r wg]. cbn [fst snd] in *. subst r.
  rewrite put_wav_at, Hb, Hc, Hput.
  eexists. split; reflexivity.
Qed.

(** An empty pair of accumulators is no loss of generality. *)
Lemma process_spells_acc E files user spells : forall saved skipped w,
  process_spells E spells files user saved skipped w
  = match process_spells E spells files user [] [] w with
    | (Ok (s, k), w') => (Ok (saved ++ s, skipped ++ k), w')
    | (Raise e, w') => (Raise e, w')
    end.
Proof.
  induction spells as [|spell rest IH]; intros saved skipped w.
  - cbn. now rewrite !app_nil_r.
  - assert (Hstep : forall sv sk w1,
              process_spells E rest files user (saved ++ sv) (skipped ++ sk) w1
              = match process_spells E rest files user sv sk w1 with
                | (Ok (s, k), w') => (Ok (saved ++ s, skipped ++ k), w')
                | (Raise e, w') => (Raise e, w')
                end).
    { intros sv sk w1.
      rewrite (IH (saved ++ sv) (skipped ++ sk) w1), (IH sv sk w1).
      destruct (process_spells E rest files user [] [] w1) as [[[s1 k1]|e1] w2];
        [|reflexivity].
      now rewrite <- !app_assoc. }
    cbn [process_spells app].
    destruct (dict_get files spell) as [b|].
    + unfold bind.
      destruct (save_audio_to_mongo E b spell user w) as [[[id|]|e] w1];
        [|rewrite <- (Hstep [] [spell] w1), app_nil_r; reflexivity|reflexivity].
      destruct (truthy id).
      * rewrite <- (Hstep [(spell, id)] [] w1), app_nil_r; reflexivity.
      * rewrite <- (Hstep [] [spell] w1), app_nil_r; reflexivity.
    + rewrite <- (Hstep [] [spell] w), app_nil_r; reflexivity.
Qed.

(** The loop over [pre ++ post] is the loop over [pre] followed by the
    loop over [post]. *)
Lemma process_spells_app E files user pre post : forall saved skipped w,
  process_spells E (pre ++ post) files user saved skipped w
  = match process_spells E pre files user saved skipped w with
    | (Ok (s, k), w1) => process_spells E post files user s k w1
    | (Raise e, w1) => (Raise e, w1)
    end.
Proof.
  induction pre as [|spell rest IH]; intros saved skipped w; [reflexivity|].
  cbn [app process_spells].
  destruct (dict_get files spell) as [b|]; [|apply IH].
  unfold bind.
  destruct (save_audio_to_mongo E b spell user w) as [[[id|]|e] w1];
    [|apply IH|reflexivity].
  destruct (truthy id); apply IH.
Qed.

(** What follows the loop: the report, which leaves the store alone. *)
Lemma main_submit_after_loop E username files w s k w1 :
  strip username <> [] -> dict_len files <> 0 ->
  process_spells E SPELLS files (sanitize_username (Some username)) [] [] w
  = (Ok (s, k), w1) ->
  exists w',
    main_submit E username files w = (Ok (Report s k), w')
    /\ same_store w1 w'
    /\ st_out w' = st_out w1 ++ report_events s k.
Proof.
  intros Hname Hcount Hp. unfold main_submit.
  destruct (strip username) as [|c r] eqn:Hs; [congruence|]. cbn [truthy negb].
  replace (dict_len files =? 0) with false by (symmetry; now apply Z.eqb_neq).
  rewrite (bind_ok _ _ _ _ _ Hp). cbv beta iota.
  assert (H1 : exists w2,
    (if negb (Nat.eqb (length s) 0)
     then (st_emit (StSuccess (9989%N :: u " Saved recordings:"));;;
           for_each (fun item => st_emit (StWrite (u "- " ++ saved_line item))) s)%M
     else ret tt) w1 = (Ok tt, w2)
    /\ same_store w1 w2
    /\ st_out w2 = st_out w1 ++ match s with
                                | [] => []
                                | _ => StSuccess (9989%N :: u " Saved recordings:")
                                       :: map (fun item => StWrite (u "- " ++ saved_line item)) s
                                end).
  { destruct s as [|e s'].
    - exists w1. cbn. rewrite app_nil_r. repeat split.
    - cbn [length Nat.eqb negb].
      destruct (st_emit_same (StSuccess (9989%N :: u " Saved recordings:")) w1) as (wa & Hea & Hsa & Hoa).
      destruct (for_each_emit_same (fun item => StWrite (u "- " ++ saved_line item)) (e :: s') wa)
        as (wb & Heb & Hsb & Hob).
      exists wb. split; [rewrite (bind_ok _ _ _ _ _ Hea); exact Heb|]. split; [eapply same_store_trans; eauto|].
      rewrite Hob, Hoa, <- app_assoc. reflexivity. }
  destruct H1 as (w2 & He1 & Hs1 & Ho1).
  assert (H2 : exists w3,
    (if negb (Nat.eqb (length k) 0)
     then for_each (fun spell => st_emit (StExpanderWrite ([8505; 65039]%N ++ u " Missing (not provided)") (u "- " ++ spell))) k
     else ret tt) w2 = (Ok tt, w3)
    /\ same_store w2 w3
    /\ st_out w3 = st_out w2 ++ map (fun spell => StExpanderWrite ([8505; 65039]%N ++ u " Missing (not provided)") (u "- " ++ spell)) k).
  { destruct k as [|e k'].
    - exists w2. cbn. rewrite app_nil_r. repeat split.
    - cbn [length Nat.eqb negb]. apply for_each_emit_same. }
  destruct H2 as (w3 & He2 & Hs2 & Ho2).
  rewrite (bind_ok _ _ _ _ _ He1), (bind_ok _ _ _ _ _ He2).
  destruct (st_emit_same (StInfo (u "**Total saved this submission: " ++ str_of_Z (Z.of_nat (length s)) ++ u "**")) w3)
    as (w4 & He3 & Hs3 & Ho3).
  rewrite (bind_ok _ _ _ _ _ He3).
  exists w4. split; [reflexivity|].
  split; [eauto using same_store_trans|].
  unfold report_events. rewrite Ho3, Ho2, Ho1, <- !app_assoc. reflexivity.
Qed.

(** C2.  An accepted submission always ends with a report in which
    every label of [SPELLS] appears exactly once, saved or skipped (it
    never aborts).  A label whose recording fails to normalise (the
    decoder raises, the buffer is absent or empty, or resampling or
    encoding raises), whose [fs.put] raises, or for which no
    connection can be made, is skipped, is not among the saved
    entries, and leaves no file in the bucket; when normalisation
    failed, [fs.put] was not even called for it.  The other labels are
    not affected: one whose recording normalises and whose write the
    store accepts is saved with a non-empty identifier.

    The same holds label by label, in the world in which the loop
    reaches the label: whatever exception the [try] block raises there
    (in the steps up to the encoding, in [get_gridfs], or in [fs.put]
    on the handle, the bucket and the clock of that moment), the call
    returns [None], shows the message, adds nothing to the bucket, the
    label is skipped and the loop goes on over the labels that follow;
    and a write that the store accepts at that moment saves the
    label. *)
Theorem failing_label_is_skipped_and_the_rest_continue :
  forall E (username : str) (files : dict) w,
    strip username <> [] -> dict_len files <> 0 ->
    exists saved skipped w',
      main_submit E username files w = (Ok (Report saved skipped), w')
      /\ interleave (map fst saved) skipped SPELLS
      /\ (forall spell b,
            In spell SPELLS -> dict_get files spell = Some b ->
            (forall wav, normalize E b <> Ok (Some wav))
            \/ (forall fs bk wav ts, exists e,
                  gridfs_put E fs bk
                    (put_request wav spell (sanitize_username (Some username)) ts)
                  = Raise e)
            \/ (g_mongo_fs w = None
                /\ exists e, mongo_connect E (MONGO_URI E) = Raise e) ->
            In spell skipped
            /\ ~ In spell (map fst saved)
            /\ forall p, In p (bucket w') ->
                         md_spell (put_metadata (snd p)) = spell ->
                         In p (bucket w))
      /\ (forall spell b,
            In spell SPELLS -> dict_get files spell = Some b ->
            (forall wav, normalize E b <> Ok (Some wav)) ->
            forall req, In req (put_calls w') ->
                        md_spell (put_metadata req) = spell ->
                        In req (put_calls w))
      /\ (forall spell b wav,
            In spell SPELLS -> dict_get files spell = Some b ->
            normalize E b = Ok (Some wav) ->
            MONGO_URI E <> [] ->
            (exists c, mongo_connect E (MONGO_URI E) = Ok c) ->
            (forall fs bk ts, exists id,
               gridfs_put E fs bk
                 (put_request wav spell (sanitize_username (Some username)) ts)
               = Ok id) ->
            exists id, In (spell, id) saved /\ id <> [])
      /\ (forall pre spell post b e,
            SPELLS = pre ++ spell :: post -> dict_get files spell = Some b ->
            (exists wb,
               save_audio_body E b spell (sanitize_username (Some username))
                 (reach E files (sanitize_username (Some username)) pre w)
               = (Raise e, wb))
            \/ raises_in_call E b spell (sanitize_username (Some username))
                 (reach E files (sanitize_username (Some username)) pre w) e ->
            In spell skipped
            /\ ~ In spell (map fst saved)
            /\ (forall p, In p (bucket w') ->
                          md_spell (put_metadata (snd p)) = spell ->
                          In p (bucket w))
            /\ exists w2 s2 k2 w3,
                 save_audio_to_mongo E b spell (sanitize_username (Some username))
                   (reach E files (sanitize_username (Some username)) pre w)
                 = (Ok None, w2)
                 /\ bucket w2
                    = bucket (reach E files (sanitize_username (Some username)) pre w)
                 /\ st_out w2
                    = st_out (reach E files (sanitize_username (Some username)) pre w)
                      ++ [processing_error e]
                 /\ process_spells E post files (sanitize_username (Some username))
                      [] [] w2
                    = (Ok (s2, k2), w3)
                 /\ (exists s1 k1, saved = s1 ++ s2 /\ skipped = k1 ++ spell :: k2)
                 /\ same_store w3 w')
      /\ (forall pre spell post b wav fs id,
            SPELLS = pre ++ spell :: post -> dict_get files spell = Some b ->
            normalize E b = Ok (Some wav) ->
            fst (get_gridfs E (reach E files (sanitize_username (Some username)) pre w))
            = Ok (Some fs) ->
            gridfs_put E fs
              (bucket (reach E files (sanitize_username (Some username)) pre w))
              (put_request wav spell (sanitize_username (Some username))
                 (time_ms E
                    (clock_reads
                       (reach E files (sanitize_username (Some username)) pre w))))
            = Ok id ->
            In (spell, str_of_oid id) saved
            /\ In (id,
                   put_request wav spell (sanitize_username (Some username))
                     (time_ms E
                        (clock_reads
                           (reach E files (sanitize_username (Some username)) pre w))))
                  (bucket w')).
Proof.
  intros E username files w Hname Hcount.
  set (user := sanitize_username (Some username)).
  destruct (process_spells_run E files user SPELLS [] [] w)
    as (s & k & w1 & Hp & Hrun).
  cbn [app] in Hp.
  destruct (main_submit_after_loop E username files w s k w1 Hname Hcount Hp)
    as (w' & Heq & Hsame & _).
  pose proof (loop_run_interleave E files user _ _ _ _ _ Hrun) as Hil.
  destruct (loop_run_store E files user _ _ _ _ _ Hrun)
    as (calls & added & Hc & Hb & Hf & Hm & Ha).
  pose proof Hsame as (_ & _ & Hs3 & Hs4 & _).
  exists s, k, w'. split; [exact Heq|]. split; [exact Hil|].
  assert (Hskip : forall spell, In spell SPELLS -> ~ In spell (map fst s) ->
            In spell k
            /\ forall p, In p (bucket w') ->
                         md_spell (put_metadata (snd p)) = spell -> In p (bucket w)).
  { intros spell Hin Hns. split.
    - apply (interleave_in _ _ _ spell Hil) in Hin. tauto.
    - intros p Hp0 Hsp. rewrite Hs4, Hb in Hp0. apply in_app_or in Hp0.
      destruct Hp0 as [Hp0|Hp0]; [exact Hp0|]. exfalso. apply Hns.
      rewrite <- Hm, map_map. cbn [fst]. rewrite <- Hsp.
      apply (in_map (fun x => md_spell (put_metadata (snd x)))). exact Hp0. }
  assert (Hsplit_in : forall pre spell post,
            SPELLS = pre ++ spell :: post -> In spell SPELLS).
  { intros pre spell post ->. apply in_or_app. right. now left. }
  split; [|split; [|split; [|split]]].
  - intros spell b Hin Hget Hfail.
    assert (Hns : ~ In spell (map fst s)).
    { intros Hs. apply in_map_iff in Hs. destruct Hs as ([sp id] & Hsp & Hs).
      cbn [fst] in Hsp. subst sp.
      destruct Hfail as [Hn|[Hpf|[Hfs Hconn]]].
      - pose proof (loop_run_classify E files user _ _ _ _ _ spell Hrun Hin) as Hcl.
        rewrite Hget in Hcl.
        destruct Hcl as [(wa & wb & i & Hout & _)|(wa & wb & Hout & Hk)].
        + eapply save_outcome_needs_normalize; eauto.
        + eapply (interleave_disjoint _ _ _ spell Hil SPELLS_nodup); [|exact Hk].
          apply in_map_iff. exists (spell, id). auto.
      - pose proof (loop_run_classify E files user _ _ _ _ _ spell Hrun Hin) as Hcl.
        rewrite Hget in Hcl.
        destruct Hcl as [(wa & wb & i & Hout & _)|(wa & wb & Hout & Hk)].
        + eapply save_outcome_needs_put; eauto.
        + eapply (interleave_disjoint _ _ _ spell Hil SPELLS_nodup); [|exact Hk].
          apply in_map_iff. exists (spell, id). auto.
      - destruct (loop_run_no_connect _ _ _ _ _ _ _ _ Hfs Hconn Hrun) as [-> _].
        destruct Hs. }
    destruct (Hskip spell Hin Hns) as [H1 H2]. auto.
  - intros spell b Hin Hget Hn req Hreq Hsp.
    rewrite Hs3, Hc in Hreq. apply in_app_or in Hreq.
    destruct Hreq as [Hreq|Hreq]; [exact Hreq|]. exfalso.
    rewrite Forall_forall in Hf. destruct (Hf req Hreq) as (_ & _ & b' & Hb' & Hn').
    rewrite Hsp, Hget in Hb'. injection Hb' as <-. eapply Hn; eauto.
  - intros spell b wav Hin Hget Hn Huri Hconn Hput.
    pose proof (loop_run_classify E files user _ _ _ _ _ spell Hrun Hin) as Hcl.
    rewrite Hget in Hcl.
    destruct Hcl as [(wa & wb & i & Hout & Hi)|(wa & wb & Hout & _)].
    + exists i. split; [exact Hi|].
      apply truthy_nonempty. eapply save_outcome_some_truthy; eauto.
    + exfalso. eapply save_outcome_must_store; eauto.
  - intros pre spell post b e Hsplit Hget Hr.
    assert (Hr' : raises_in_call E b spell user (reach E files user pre w) e).
    { destruct Hr as [Hr|Hr]; [now apply save_audio_body_raises|exact Hr]. }
    clear Hr. pose proof Hp as Hp'.
    rewrite Hsplit, process_spells_app in Hp'.
    unfold reach in *.
    destruct (process_spells_run E files user pre [] [] w)
      as (s1 & k1 & wa & Hpre & _).
    cbn [app] in Hpre. rewrite Hpre in Hp', Hr' |- *. cbn [snd] in Hr' |- *.
    destruct (save_audio_to_mongo_raises _ _ _ _ _ _ Hr') as (w2 & Hcall & Hb2 & Ho2).
    cbn [process_spells] in Hp'. rewrite Hget, (bind_ok _ _ _ _ _ Hcall) in Hp'.
    rewrite process_spells_acc in Hp'.
    destruct (process_spells_run E files user post [] [] w2)
      as (s2 & k2 & w3 & Hpost & _).
    cbn [app] in Hpost. rewrite Hpost in Hp'.
    injection Hp' as Hse Hke Hwe. subst w3.
    assert (Hin : In spell k).
    { rewrite <- Hke. apply in_or_app. left. apply in_or_app. right. now left. }
    assert (Hns : ~ In spell (map fst s)).
    { intros Hs. exact (interleave_disjoint _ _ _ spell Hil SPELLS_nodup Hs Hin). }
    split; [exact Hin|]. split; [exact Hns|].
    split; [exact (proj2 (Hskip spell (Hsplit_in _ _ _ Hsplit) Hns))|].
    exists w2, s2, k2, w1. split; [exact Hcall|]. split; [exact Hb2|].
    split; [exact Ho2|]. split; [exact Hpost|]. split; [|exact Hsame].
    exists s1, k1. split; [now symmetry|].
    rewrite <- Hke, <- app_assoc. reflexivity.
  - intros pre spell post b wav fs id Hsplit Hget Hn Hfs Hput.
    pose proof Hp as Hp'.
    rewrite Hsplit, process_spells_app in Hp'.
    unfold reach in *.
    destruct (process_spells_run E files user pre [] [] w)
      as (s1 & k1 & wa & Hpre & _).
    cbn [app] in Hpre. rewrite Hpre in Hp', Hfs, Hput |- *.
    cbn [snd] in Hfs, Hput |- *.
    destruct (save_audio_to_mongo_stores _ _ spell user _ _ _ _ Hn Hfs Hput)
      as (w2 & Hcall & Hb2).
    cbn [process_spells] in Hp'. rewrite Hget, (bind_ok _ _ _ _ _ Hcall) in Hp'.
    rewrite str_of_oid_truthy, process_spells_acc in Hp'.
    destruct (process_spells_run E files user post [] [] w2)
      as (s2 & k2 & w3 & Hpost & Hrun2).
    cbn [app] in Hpost. rewrite Hpost in Hp'.
    injection Hp' as Hse Hke Hwe. subst w3.
    split.
    + rewrite <- Hse. apply in_or_app. left. apply in_or_app. right. now left.
    + destruct (loop_run_store E files user _ _ _ _ _ Hrun2)
        as (calls2 & added2 & _ & Hb3 & _).
      rewrite Hs4, Hb3, Hb2. apply in_or_app. left. apply in_or_app. right. now left.
Qed.

Lemma In_SPELLS_Lumos : In (u "Lumos") SPELLS.
Proof. left. reflexivity. Qed.

Lemma In_SPELLS_Accio : In (u "Accio") SPELLS.
Proof. do 4 right. left. reflexivity. Qed.

(** The store refuses the first write and accepts the second: "Lumos"
    is skipped and "Nox", which follows it, is saved. *)
Lemma failing_label_is_skipped_and_the_rest_continue_witness :
  strip (u "Ron") <> []
  /\ dict_len [(u "Lumos", Demo.rec_mono); (u "Nox", Demo.rec_stereo)] <> 0
  /\ exists saved skipped w',
       main_submit Demo.env_flaky (u "Ron")
         [(u "Lumos", Demo.rec_mono); (u "Nox", Demo.rec_stereo)] Demo.w0
       = (Ok (Report saved skipped), w')
       /\ In (u "Lumos") skipped
       /\ ~ In (u "Lumos") (map fst saved)
       /\ exists id, In (u "Nox", id) saved.
Proof.
  assert (H1 : strip (u "Ron") <> []) by discriminate.
  assert (H2 : dict_len [(u "Lumos", Demo.rec_mono); (u "Nox", Demo.rec_stereo)] <> 0)
    by discriminate.
  split; [exact H1|]. split; [exact H2|].
  destruct (failing_label_is_skipped_and_the_rest_continue Demo.env_flaky (u "Ron")
              [(u "Lumos", Demo.rec_mono); (u "Nox", Demo.rec_stereo)] Demo.w0 H1 H2)
    as (saved & skipped & w' & Heq & _ & _ & _ & _ & Hfail & Hok).
  exists saved, skipped, w'. split; [exact Heq|].
  assert (Hl : raises_in_call Demo.env_flaky Demo.rec_mono (u "Lumos")
                 (sanitize_username (Some (u "Ron")))
                 (reach Demo.env_flaky
                    [(u "Lumos", Demo.rec_mono); (u "Nox", Demo.rec_stereo)]
                    (sanitize_username (Some (u "Ron"))) [] Demo.w0)
                 (u "connection reset")).
  { right. eexists. split; [vm_compute; reflexivity|].
    right. eexists. split; vm_compute; reflexivity. }
  destruct (Hfail [] (u "Lumos") (skipn 1 SPELLS) Demo.rec_mono (u "connection reset")
              eq_refl eq_refl (or_intror Hl)) as (Hs & Hns & _).
  split; [exact Hs|]. split; [exact Hns|].
  eexists.
  refine (proj1 (Hok [u "Lumos"] (u "Nox") (skipn 2 SPELLS) Demo.rec_stereo
                   _ _ _ eq_refl eq_refl _ _ _)).
  - vm_compute. reflexivity.
  - vm_compute. reflexivity.
  - vm_compute. reflexivity.
Defined.

Ltac loop_step H :=
  let Hget := fresh "Hget" in
  let Hout := fresh "Hout" in
  let Hrest := fresh "Hrest" in
  inversion H as [ | ? ? ? ? ? ? Hget Hrest
                   | ? ? ? ? ? ? ? ? ? Hget Hout Hrest
                   | ? ? ? ? ? ? ? ? Hget Hout Hrest ];
  subst; vm_compute in Hget; try discriminate Hget; clear H.

(** C8.  The report of an accepted submission lists the saved entries
    and the skipped labels each in the order of [SPELLS], and together
    they are [SPELLS]; every saved entry has a non-empty identifier;
    and the report does not depend on the order in which the
    recordings lie in the dictionary.  With identity "Ron", recordings
    for "Lumos" and "Nox" only (in either order) that normalise, and a
    store that connects and accepts writes, the report is exactly the
    two saved entries for "Lumos" and "Nox", with non-empty
    identifiers, and the skipped labels "Alohomora", "Wingardium
    Leviosa", "Accio", "Reparo". *)
Theorem report_follows_canonical_order :
  (forall E (username : str) (files : dict) w,
     strip username <> [] -> dict_len files <> 0 ->
     exists saved skipped w',
       main_submit E username files w = (Ok (Report saved skipped), w')
       /\ interleave (map fst saved) skipped SPELLS
       /\ Forall (fun e => snd e <> []) saved)
  /\ (forall E (username : str) (files files' : dict) w,
        NoDup (map fst files) -> Permutation files files' ->
        main_submit E username files w = main_submit E username files' w)
  /\ (forall E (files : dict) w b1 b2 wav1 wav2,
        Permutation files [(u "Lumos", b1); (u "Nox", b2)] ->
        normalize E b1 = Ok (Some wav1) ->
        normalize E b2 = Ok (Some wav2) ->
        MONGO_URI E <> [] ->
        (exists c, mongo_connect E (MONGO_URI E) = Ok c) ->
        (forall fs bk req, exists id, gridfs_put E fs bk req = Ok id) ->
        exists id1 id2 w',
          main_submit E (u "Ron") files w
          = (Ok (Report [(u "Lumos", id1); (u "Nox", id2)]
                        (map u ["Alohomora"; "Wingardium Leviosa"; "Accio"; "Reparo"]%string)),
             w')
          /\ id1 <> [] /\ id2 <> []).
Proof.
  split; [|split].
  - intros E username files w Hname Hcount.
    destruct (main_submit_accepted E username files w Hname Hcount)
      as (s & k & w1 & w' & Heq & Hrun & _).
    exists s, k, w'. split; [exact Heq|]. split.
    + eapply loop_run_interleave; eauto.
    + eapply loop_run_ids; eauto.
  - intros E username files files' w. apply main_submit_perm.
  - intros E files w b1 b2 wav1 wav2 Hperm Hn1 Hn2 Huri Hconn Hput.
    set (c := [(u "Lumos", b1); (u "Nox", b2)]) in *.
    assert (Hnd : NoDup (map fst c)).
    { cbn. repeat constructor; cbn [In]; intros H;
        repeat (destruct H as [H|H]; [discriminate H|]); exact H. }
    rewrite <- (main_submit_perm E (u "Ron") c files w Hnd (Permutation_sym Hperm)).
    destruct (main_submit_accepted E (u "Ron") c w) as (s & k & w1 & w' & Heq & Hrun & _);
      [discriminate|discriminate|].
    unfold SPELLS in Hrun. cbn [map] in Hrun. subst c.
    assert (Hmust : forall spell b wav wa wb,
              normalize E b = Ok (Some wav) ->
              ~ save_outcome E b spell (sanitize_username (Some (u "Ron"))) wa None wb).
    { intros spell b wav wa wb Hn. eapply save_outcome_must_store; eauto. }
    loop_step Hrun; [|exfalso; injection Hget as <-; eapply Hmust; [exact Hn1|eassumption]].
    loop_step Hrest; [|exfalso; injection Hget0 as <-; eapply Hmust; [exact Hn2|eassumption]].
    loop_step Hrest0. loop_step Hrest. loop_step Hrest0. loop_step Hrest.
    inversion Hrest0; subst.
    eexists _, _, w'. split; [exact Heq|].
    split; apply truthy_nonempty; eapply save_outcome_some_truthy; eauto.
Qed.

(** "Ron" hands in "Nox" before "Lumos". *)
Lemma report_follows_canonical_order_witness :
  Permutation [(u "Nox", Demo.rec_stereo); (u "Lumos", Demo.rec_mono)]
              [(u "Lumos", Demo.rec_mono); (u "Nox", Demo.rec_stereo)]
  /\ exists id1 id2 w',
       main_submit Demo.env (u "Ron")
         [(u "Nox", Demo.rec_stereo); (u "Lumos", Demo.rec_mono)] Demo.w0
       = (Ok (Report [(u "Lumos", id1); (u "Nox", id2)]
                     (map u ["Alohomora"; "Wingardium Leviosa"; "Accio"; "Reparo"]%string)),
          w')
       /\ id1 <> [] /\ id2 <> [].
Proof.
  assert (Hp : Permutation [(u "Nox", Demo.rec_stereo); (u "Lumos", Demo.rec_mono)]
                           [(u "Lumos", Demo.rec_mono); (u "Nox", Demo.rec_stereo)])
    by apply perm_swap.
  split; [exact Hp|].
  refine (proj2 (proj2 report_follows_canonical_order) Demo.env _ Demo.w0
            Demo.rec_mono Demo.rec_stereo _ _ Hp eq_refl eq_refl _ _ _).
  - discriminate.
  - eexists. reflexivity.
  - intros fs bk req. eexists. reflexivity.
Defined.

(** ** The toy environment, run *)

(** The mono recording -2.0, -1.0, 0.0, 0.5, 1.0, 1.984375 is stored
    under a name built from the label, the identity and the time, as
    the samples -32767, -32767, 0, 16383, 32767, 32767. *)
Example lumos_is_stored :
  match main_submit Demo.env (u "Ron Weasley") [(u "Lumos", Demo.rec_mono)] Demo.w0 with
  | (Ok (Report [(spell, _)] skipped), w') =>
      spell = u "Lumos"
      /\ length skipped = 5%nat
      /\ map put_filename (put_calls w') = [u "lumos_ron_weasley_1700000000000.wav"]
      /\ map (fun r => option_map (fun i => samples16 (wf_payload i)) (parse (put_data r)))
             (put_calls w')
         = [Some [-32767; -32767; 0; 16383; 32767; 32767]]
      /\ map (fun p => md_username (put_metadata (snd p))) (bucket w') = [u "ron_weasley"]
  | _ => False
  end.
Proof. vm_compute. repeat split. Qed.

(** A server that refuses the write: [fs.put] was called once, nothing
    is in the bucket, the label is skipped and the error is shown. *)
Example refused_write_is_skipped :
  match main_submit Demo.env_put_fails (u "Ron") [(u "Lumos", Demo.rec_mono)] Demo.w0 with
  | (Ok (Report [] skipped), w') =>
      skipped = SPELLS
      /\ length (put_calls w') = 1%nat
      /\ bucket w' = []
      /\ hd_error (st_out w')
         = Some (StError (u "Error processing audio: connection refused"))
  | _ => False
  end.
Proof. vm_compute. repeat split. Qed.
